(** * funcParser: locating a function in a babylon AST and simplifying its
    signature (lib/jsdoc/funcParser.js).

    The module turns source text into an AST (babylon), walks it with
    babel-traverse to find the function at, or one line below, the cursor
    line, and flattens its parameters into descriptors for a JSDoc block.

    The embedding keeps the shape of the source: one definition per
    JavaScript function, exceptions as an error monad, the two captured
    variables of [getNode] as an explicit traversal state. *)

From Stdlib Require Import List String Ascii Bool ZArith QArith Lia.
Import ListNotations.
Local Open Scope Z_scope.
Local Open Scope string_scope.
Local Open Scope list_scope.

(** ** Exceptions and the error monad *)

(** What a call can throw.  [Thrown v] is a [throw] whose operand is a bare
    string rather than an [Error] object. *)
Inductive exn : Type :=
| SyntaxError (message : string)
| TypeError (message : string)
| Error (message : string)
| Thrown (value : string).

Inductive result (A : Type) : Type :=
| Ok (a : A)
| Raise (e : exn).

Arguments Ok {A} a.
Arguments Raise {A} e.

Definition bind {A B} (m : result A) (k : A -> result B) : result B :=
  match m with
  | Ok a => k a
  | Raise e => Raise e
  end.

Notation "x <- m ;; k" := (bind m (fun x => k))
  (at level 61, m at next level, right associativity).

(** [Array.prototype.reduce] with a callback that may throw. *)
Fixpoint reduce {A B} (f : B -> A -> result B) (l : list A) (init : B)
  : result B :=
  match l with
  | [] => Ok init
  | x :: l' => acc <- f init x ;; reduce f l' acc
  end.

(** ** JavaScript values that end up in a descriptor *)

Inductive jsval : Type :=
| JUndefined
| JString (s : string)
| JNumber (q : Q).

Definition is_string (v : jsval) : bool :=
  match v with JString _ => true | _ => false end.

Definition is_number (v : jsval) : bool :=
  match v with JNumber _ => true | _ => false end.

(** ** The AST *)

Record Position := { line : Z; column : Z }.

Record SourceLocation := { start : Position; finish : Position }.

(** Node kinds the module never looks inside are gathered under [Other];
    their kind name is any capitalised name that is not one of the kinds
    modelled by a constructor of its own. *)
Definition modelled_kinds : list string :=
  [ "Identifier"; "StringLiteral"; "NumericLiteral"; "ArrayExpression";
    "ObjectExpression"; "ObjectProperty"; "FunctionExpression";
    "ArrowFunctionExpression"; "MemberExpression"; "AssignmentExpression";
    "AssignmentPattern"; "RestElement"; "ObjectPattern"; "ArrayPattern";
    "FunctionDeclaration"; "VariableDeclaration"; "VariableDeclarator";
    "ExportNamedDeclaration"; "ExportDefaultDeclaration" ].

Definition capitalised (s : string) : bool :=
  match s with
  | EmptyString => false
  | String c _ => let n := nat_of_ascii c in (65 <=? n)%nat && (n <=? 90)%nat
  end.

Definition other_kind_ok (s : string) : bool :=
  capitalised s && negb (existsb (String.eqb s) modelled_kinds).

Record other_kind := OtherKind {
  kind_name : string;
  kind_ok : other_kind_ok kind_name = true
}.

Unset Elimination Schemes.

(** Children are listed in the order babel-types gives as visitor keys.
    Holes of array literals and patterns are not nodes and are left out. *)
Inductive Node : Type :=
| Identifier (loc : SourceLocation) (name : string)
| StringLiteral (loc : SourceLocation) (value : string)
| NumericLiteral (loc : SourceLocation) (value : Q)
| ArrayExpression (loc : SourceLocation) (elements : list Node)
| ObjectExpression (loc : SourceLocation) (properties : list Node)
| ObjectProperty (loc : SourceLocation) (key value : Node)
| FunctionExpression (loc : SourceLocation) (id : option Node)
    (params : list Node) (body : Node)
| ArrowFunctionExpression (loc : SourceLocation) (params : list Node)
    (body : Node)
| MemberExpression (loc : SourceLocation) (object property : Node)
| AssignmentExpression (loc : SourceLocation) (left right : Node)
| AssignmentPattern (loc : SourceLocation) (left right : Node)
| RestElement (loc : SourceLocation) (argument : Node)
| ObjectPattern (loc : SourceLocation) (properties : list Node)
| ArrayPattern (loc : SourceLocation) (elements : list Node)
| FunctionDeclaration (loc : SourceLocation) (id : option Node)
    (params : list Node) (body : Node)
| VariableDeclaration (loc : SourceLocation) (declarations : list Node)
| VariableDeclarator (loc : SourceLocation) (id : Node) (init : option Node)
| ExportNamedDeclaration (loc : SourceLocation) (declaration : option Node)
    (specifiers : list Node) (source : option Node)
| ExportDefaultDeclaration (loc : SourceLocation) (declaration : Node)
| Other (kind : other_kind) (loc : SourceLocation) (children : list Node).

Set Elimination Schemes.

(** [node.type] *)
Definition type_of (n : Node) : string :=
  match n with
  | Identifier _ _ => "Identifier"
  | StringLiteral _ _ => "StringLiteral"
  | NumericLiteral _ _ => "NumericLiteral"
  | ArrayExpression _ _ => "ArrayExpression"
  | ObjectExpression _ _ => "ObjectExpression"
  | ObjectProperty _ _ _ => "ObjectProperty"
  | FunctionExpression _ _ _ _ => "FunctionExpression"
  | ArrowFunctionExpression _ _ _ => "ArrowFunctionExpression"
  | MemberExpression _ _ _ => "MemberExpression"
  | AssignmentExpression _ _ _ => "AssignmentExpression"
  | AssignmentPattern _ _ _ => "AssignmentPattern"
  | RestElement _ _ => "RestElement"
  | ObjectPattern _ _ => "ObjectPattern"
  | ArrayPattern _ _ => "ArrayPattern"
  | FunctionDeclaration _ _ _ _ => "FunctionDeclaration"
  | VariableDeclaration _ _ => "VariableDeclaration"
  | VariableDeclarator _ _ _ => "VariableDeclarator"
  | ExportNamedDeclaration _ _ _ _ => "ExportNamedDeclaration"
  | ExportDefaultDeclaration _ _ => "ExportDefaultDeclaration"
  | Other k _ _ => kind_name k
  end.

(** [node.loc] *)
Definition loc_of (n : Node) : SourceLocation :=
  match n with
  | Identifier l _ | StringLiteral l _ | NumericLiteral l _
  | ArrayExpression l _ | ObjectExpression l _ | ObjectProperty l _ _
  | FunctionExpression l _ _ _ | ArrowFunctionExpression l _ _
  | MemberExpression l _ _ | AssignmentExpression l _ _
  | AssignmentPattern l _ _ | RestElement l _ | ObjectPattern l _
  | ArrayPattern l _ | FunctionDeclaration l _ _ _
  | VariableDeclaration l _ | VariableDeclarator l _ _
  | ExportNamedDeclaration l _ _ _ | ExportDefaultDeclaration l _
  | Other _ l _ => l
  end.

(** [node.name]: only identifiers have the field; reading it off any other
    node yields [undefined]. *)
Definition name_of (n : Node) : jsval :=
  match n with
  | Identifier _ name => JString name
  | _ => JUndefined
  end.

(** ** Parameter Simplifier *)

Definition DEFAULT_PARAM_NAME : string := "Unknown".

(** A simplified parameter.  A key that the object literal does not have is
    [None]; [pd_name] is always a key, its value may be [undefined]. *)
Record ParameterDescriptor := {
  pd_name : jsval;
  pd_parent : option string;
  pd_type : option string;
  pd_defaultValue : option jsval
}.

(** The values of the [PARAM_PARSERS] table. *)
Inductive ParamParser : Type :=
| parseIdentifierParam_fn
| parseAssignmentParam_fn
| parseRestParam_fn
| parseDestructuredParam_fn.

Definition PARAM_PARSERS (paramType : string) : option ParamParser :=
  if paramType =? "Identifier" then Some parseIdentifierParam_fn
  else if paramType =? "AssignmentPattern" then Some parseAssignmentParam_fn
  else if paramType =? "RestElement" then Some parseRestParam_fn
  else if paramType =? "ObjectPattern" then Some parseDestructuredParam_fn
  else None.

Definition parseIdentifierParam (param : Node) : result (list ParameterDescriptor) :=
  Ok [ {| pd_name := name_of param; pd_parent := None; pd_type := None;
          pd_defaultValue := None |} ].

Definition parseAssignmentParam (param : Node) : result (list ParameterDescriptor) :=
  match param with
  | AssignmentPattern _ left' right' =>
      let paramAssignmentType := type_of right' in
      assigned <-
        match right' with
        | StringLiteral _ value => Ok ("string", JString value)
        | NumericLiteral _ value => Ok ("number", JNumber value)
        | ArrayExpression _ _ => Ok ("array", JString "[]")
        | ObjectExpression _ _ => Ok ("object", JString "{}")
        | _ => Raise (Thrown paramAssignmentType)
        end ;;
      let '(type, defaultValue) := assigned in
      Ok [ {| pd_name := name_of left'; pd_parent := None;
              pd_type := Some type; pd_defaultValue := Some defaultValue |} ]
  | _ => Raise (TypeError "Cannot read property 'type' of undefined")
  end.

Definition parseRestParam (param : Node) : result (list ParameterDescriptor) :=
  match param with
  | RestElement _ argument =>
      Ok [ {| pd_name := name_of argument; pd_parent := None;
              pd_type := Some "array"; pd_defaultValue := None |} ]
  | _ => Raise (TypeError "Cannot read property 'name' of undefined")
  end.

Definition getParamParser (paramType : string) : result ParamParser :=
  match PARAM_PARSERS paramType with
  | None => Raise (Error ("Unknown param type: " ++ paramType)%string)
  | Some pp => Ok pp
  end.

(** [Object.assign({}, p, { parent })] *)
Definition assign_parent (parent : string) (p : ParameterDescriptor)
  : ParameterDescriptor :=
  {| pd_name := pd_name p; pd_parent := Some parent; pd_type := pd_type p;
     pd_defaultValue := pd_defaultValue p |}.

Fixpoint parseDestructuredParam (param : Node) {struct param}
  : result (list ParameterDescriptor) :=
  match param with
  | ObjectPattern _ props =>
      let parent := DEFAULT_PARAM_NAME in
      reduce
        (fun params prop =>
           match prop with
           | ObjectProperty _ _ value =>
               pp <- getParamParser (type_of value) ;;
               ps <- match pp with
                     | parseIdentifierParam_fn => parseIdentifierParam value
                     | parseAssignmentParam_fn => parseAssignmentParam value
                     | parseRestParam_fn => parseRestParam value
                     | parseDestructuredParam_fn => parseDestructuredParam value
                     end ;;
               let newParams := map (assign_parent parent) ps in
               Ok (params ++ newParams)
           | _ => Raise (TypeError "Cannot read property 'type' of undefined")
           end)
        props
        [ {| pd_name := JString parent; pd_parent := None;
             pd_type := Some "object"; pd_defaultValue := None |} ]
  | _ => Raise (TypeError "Cannot read property 'reduce' of undefined")
  end.

(** Calling the function a table entry stands for: [pp(param)]. *)
Definition call (pp : ParamParser) (param : Node)
  : result (list ParameterDescriptor) :=
  match pp with
  | parseIdentifierParam_fn => parseIdentifierParam param
  | parseAssignmentParam_fn => parseAssignmentParam param
  | parseRestParam_fn => parseRestParam param
  | parseDestructuredParam_fn => parseDestructuredParam param
  end.

Definition simplifyParams (params : list Node)
  : result (list ParameterDescriptor) :=
  reduce
    (fun col param =>
       pp <- getParamParser (type_of param) ;;
       ps <- call pp param ;;
       Ok (col ++ ps))
    params [].

(** ** Function Locator *)

Definition onLine (n : Node) (lineNum : Z) : bool :=
  let startLine := line (start (loc_of n)) in
  (startLine =? lineNum)%Z || (startLine - 1 =? lineNum)%Z.

(** A node together with where it sits in the tree, as babel-traverse hands
    it to a visitor.  The position is the chain of (key, index) steps from
    the root; it stands for the identity of the node object, so that [===]
    on nodes is equality of positions. *)
Definition Step : Type := (string * nat)%type.

Record NodePath := { path_pos : list Step; path_node : Node }.

Definition step_eqb (a b : Step) : bool :=
  (fst a =? fst b) && Nat.eqb (snd a) (snd b).

Fixpoint pos_eqb (a b : list Step) : bool :=
  match a, b with
  | [], [] => true
  | x :: a', y :: b' => step_eqb x y && pos_eqb a' b'
  | _, _ => false
  end.

(** [a === b] on the nodes of two paths of one tree. *)
Definition same_node (a b : NodePath) : bool :=
  pos_eqb (path_pos a) (path_pos b).

(** The traversal order of babel-traverse: a node is entered before its
    children, children key by key in visitor-key order, the elements of an
    array-valued key from left to right. *)
Fixpoint preorder (pos : list Step) (n : Node) {struct n} : list NodePath :=
  let many (key : string) :=
    fix many (i : nat) (l : list Node) {struct l} : list NodePath :=
      match l with
      | [] => []
      | c :: l' => preorder (pos ++ [(key, i)]) c ++ many (S i) l'
      end in
  let one (key : string) (c : Node) := preorder (pos ++ [(key, 0%nat)]) c in
  let maybe (key : string) (o : option Node) :=
    match o with
    | Some c => preorder (pos ++ [(key, 0%nat)]) c
    | None => []
    end in
  {| path_pos := pos; path_node := n |} ::
  match n with
  | Identifier _ _ | StringLiteral _ _ | NumericLiteral _ _ => []
  | ArrayExpression _ elements => many "elements" 0%nat elements
  | ObjectExpression _ properties => many "properties" 0%nat properties
  | ObjectProperty _ key value => one "key" key ++ one "value" value
  | FunctionExpression _ id params body =>
      maybe "id" id ++ many "params" 0%nat params ++ one "body" body
  | ArrowFunctionExpression _ params body =>
      many "params" 0%nat params ++ one "body" body
  | MemberExpression _ object property =>
      one "object" object ++ one "property" property
  | AssignmentExpression _ left' right' =>
      one "left" left' ++ one "right" right'
  | AssignmentPattern _ left' right' =>
      one "left" left' ++ one "right" right'
  | RestElement _ argument => one "argument" argument
  | ObjectPattern _ properties => many "properties" 0%nat properties
  | ArrayPattern _ elements => many "elements" 0%nat elements
  | FunctionDeclaration _ id params body =>
      maybe "id" id ++ many "params" 0%nat params ++ one "body" body
  | VariableDeclaration _ declarations =>
      many "declarations" 0%nat declarations
  | VariableDeclarator _ id init => one "id" id ++ maybe "init" init
  | ExportNamedDeclaration _ declaration specifiers source =>
      maybe "declaration" declaration
      ++ many "specifiers" 0%nat specifiers ++ maybe "source" source
  | ExportDefaultDeclaration _ declaration => one "declaration" declaration
  | Other _ _ children => many "children" 0%nat children
  end.

(** [node.params]: function nodes have the field, no other node has. *)
Definition params_of (n : Node) : option (list Node) :=
  match n with
  | FunctionDeclaration _ _ params _
  | FunctionExpression _ _ params _
  | ArrowFunctionExpression _ params _ => Some params
  | _ => None
  end.

(** The node object [getNode] returns: the node as it was parsed, together
    with what its [id] and [loc] fields hold at return, after the
    assignments the visitors make to them.  [fn_id] is [None] when [id] is
    [null] and otherwise holds the value of [id.name]. *)
Record FunctionNode := {
  fn_node : Node;
  fn_id : option jsval;
  fn_loc : SourceLocation
}.

(** The two variables the visitors of [getNode] close over. *)
Record State := {
  node : option FunctionNode;
  exported : option NodePath
}.

(** [exported.declaration] *)
Definition declaration_of (e : NodePath) : option NodePath :=
  match path_node e with
  | ExportNamedDeclaration _ (Some d) _ _
  | ExportDefaultDeclaration _ d =>
      Some {| path_pos := path_pos e ++ [("declaration", 0%nat)];
              path_node := d |}
  | _ => None
  end.

(** [exported.declaration === node], for the node of the visited path *)
Definition declaration_is (e declaration : NodePath) : bool :=
  match declaration_of e with
  | Some d => same_node d declaration
  | None => false
  end.

(** The visitor object passed to [traverse], applied to one path.  The four
    entries are keyed by node kind; every other kind has no entry. *)
Definition visitor (lineNum : Z) (st : State) (declaration : NodePath)
  : result State :=
  let n := path_node declaration in
  match n with
  | FunctionDeclaration loc id _ _ =>
      if onLine n lineNum then
        let loc' :=
          match exported st with
          | Some e => if declaration_is e declaration
                      then loc_of (path_node e) else loc
          | None => loc
          end in
        Ok {| node := Some {| fn_node := n; fn_id := option_map name_of id;
                              fn_loc := loc' |};
              exported := exported st |}
      else Ok st
  | VariableDeclaration loc declarations =>
      match declarations with
      | [] =>
          if onLine n lineNum
          then Raise (TypeError "Cannot read property 'type' of undefined")
          else Ok st
      | declarator :: _ =>
          if onLine n lineNum then
            match declarator with
            | VariableDeclarator _ id init =>
                match init with
                | None =>
                    Raise (TypeError "Cannot read property 'type' of null")
                | Some declaredNode =>
                    match declaredNode with
                    | FunctionExpression _ _ _ _ =>
                        Ok {| node := Some {| fn_node := declaredNode;
                                              fn_id := Some (name_of id);
                                              fn_loc := loc |};
                              exported := exported st |}
                    | _ => Ok st
                    end
                end
            | _ => Ok st
            end
          else Ok st
      end
  | ExportNamedDeclaration _ _ _ _ | ExportDefaultDeclaration _ _ =>
      Ok {| node := node st; exported := Some declaration |}
  | AssignmentExpression loc left' right' =>
      if onLine n lineNum then
        match left', right' with
        | MemberExpression _ _ property, FunctionExpression _ _ _ _ =>
            Ok {| node := Some {| fn_node := right';
                                  fn_id := Some (name_of property);
                                  fn_loc := loc |};
                  exported := exported st |}
        | _, _ => Ok st
        end
      else Ok st
  | _ => Ok st
  end.

(** What babylon returns: a [File] node whose [program] is the [Program]. *)
Record File := { file_loc : SourceLocation; program : Node }.

(** The paths [traverse] visits, in order.  The root itself is not visited,
    only what hangs below it. *)
Definition paths (ast : File) : list NodePath :=
  preorder [("program", 0%nat)] (program ast).

Section Traversal.

(** The crawl babel-traverse makes of the scopes of the program when the
    traversal enters it, before any visitor runs: it registers every
    declaration of the file and throws on a name that a scope binds twice
    with [let], [const], [class] or [import]; otherwise it returns.  The
    library is not part of this module, so what the crawl does on an AST is
    a parameter. *)
Variable crawl : File -> result unit.

(** [traverse(ast, visitors)]: the scopes are crawled, then the visitor
    runs on every path in traversal order; an exception thrown by the crawl
    or by the visitor ends the traversal. *)
Definition traverse (ast : File) (visit : State -> NodePath -> result State)
  (st : State) : result State :=
  scope <- crawl ast ;;
  reduce visit (paths ast) st.

Definition getNode (ast : File) (lineNum : Z) : result (option FunctionNode) :=
  st <- traverse ast (visitor lineNum) {| node := None; exported := None |} ;;
  Ok (node st).

End Traversal.

(** ** Location Mapper and Orchestrator *)

Definition simplifyLocation (location : SourceLocation) : Position :=
  {| line := Z.max (line (start location) - 1) 1;
     column := column (start location) |}.

Record Returns := { returns : bool }.

Record FunctionDescriptor := {
  fd_name : jsval;
  fd_location : Position;
  fd_params : list ParameterDescriptor;
  fd_returns : Returns
}.

Definition simplifyNode (n : FunctionNode) : result FunctionDescriptor :=
  match fn_id n with
  | None => Raise (TypeError "Cannot read property 'name' of null")
  | Some name =>
      let location := simplifyLocation (fn_loc n) in
      match params_of (fn_node n) with
      | None => Raise (TypeError "Cannot read property 'reduce' of undefined")
      | Some raw =>
          params <- simplifyParams raw ;;
          Ok {| fd_name := name; fd_location := location; fd_params := params;
                fd_returns := {| returns := false |} |}
      end
  end.

Section Orchestrator.

(** babylon's [parse] with the options of [getAST]: the AST of the text,
    or a [SyntaxError]. *)
Variable getAST : string -> result File.

(** The scope crawl of [traverse], as above. *)
Variable crawl : File -> result unit.

(** [parse(code, lineNum = 1)]; an omitted line number is [None], a
    returned [null] is [None]. *)
Definition parse (code : string) (lineNum : option Z)
  : result (option FunctionDescriptor) :=
  let lineNum := match lineNum with Some l => l | None => 1 end in
  ast <- getAST code ;;
  found <- getNode crawl ast lineNum ;;
  match found with
  | None => Ok None
  | Some n =>
      simplified <- simplifyNode n ;;
      Ok (Some simplified)
  end.

End Orchestrator.

(** ** Derived notions used to state the properties *)

(** One step of the [reduce] of [simplifyParams]: the descriptors of a
    single raw parameter. *)
Definition simplifyParam (param : Node) : result (list ParameterDescriptor) :=
  pp <- getParamParser (type_of param) ;;
  call pp param.

(** The descriptors a property of a destructured parameter expands to,
    before [parent] is added. *)
Definition simplifyProperty (prop : Node) : result (list ParameterDescriptor) :=
  match prop with
  | ObjectProperty _ _ value => simplifyParam value
  | _ => Raise (TypeError "Cannot read property 'type' of undefined")
  end.

(** The entry every destructured parameter starts with. *)
Definition synthetic_parent : ParameterDescriptor :=
  {| pd_name := JString DEFAULT_PARAM_NAME; pd_parent := None;
     pd_type := Some "object"; pd_defaultValue := None |}.

(** Running a throwing function over a list, left to right. *)
Fixpoint mapM {A B} (f : A -> result B) (l : list A) : result (list B) :=
  match l with
  | [] => Ok []
  | x :: l' => y <- f x ;; ys <- mapM f l' ;; Ok (y :: ys)
  end.

(** The failures the module raises on syntax it does not support, for the
    given kind name: the [Error] of [getParamParser] and the bare kind name
    thrown by [parseAssignmentParam]. *)
Definition UnknownParamType (kind : string) (e : exn) : Prop :=
  e = Error ("Unknown param type: " ++ kind)%string \/ e = Thrown kind.

Definition param_kinds : list string :=
  [ "Identifier"; "AssignmentPattern"; "RestElement"; "ObjectPattern" ].

Definition literal_kinds : list string :=
  [ "StringLiteral"; "NumericLiteral"; "ArrayExpression"; "ObjectExpression" ].

Definition is_object_pattern (n : Node) : bool :=
  match n with ObjectPattern _ _ => true | _ => false end.

(** The default expressions [parseAssignmentParam] has a branch for. *)
Definition is_literal (n : Node) : bool :=
  match n with
  | StringLiteral _ _ | NumericLiteral _ _
  | ArrayExpression _ _ | ObjectExpression _ _ => true
  | _ => false
  end.

(** The value of a property of an object pattern, [prop.value]. *)
Definition value_of (prop : Node) : option Node :=
  match prop with ObjectProperty _ _ value => Some value | _ => None end.

(** Whether a destructured parameter has a property whose value is itself
    an object pattern. *)
Definition has_nested_pattern (param : Node) : bool :=
  match param with
  | ObjectPattern _ props =>
      existsb (fun prop => match value_of prop with
                           | Some v => is_object_pattern v
                           | None => false
                           end) props
  | _ => false
  end.

(** How deep object patterns nest below a parameter. *)
Fixpoint pattern_depth (param : Node) : nat :=
  match param with
  | ObjectPattern _ props =>
      S (list_max (map (fun prop => match prop with
                                    | ObjectProperty _ _ value =>
                                        pattern_depth value
                                    | _ => 0%nat
                                    end) props))
  | _ => 0%nat
  end.

(** [Object.assign({}, p, { parent })] over a list, as [map] applies it. *)
Definition with_parent (ps : list ParameterDescriptor)
  : list ParameterDescriptor :=
  map (assign_parent DEFAULT_PARAM_NAME) ps.

(** What a [defaultValue] holds: a number next to type "number", a string
    next to every other type. *)
Definition default_matches_type (d : ParameterDescriptor) : Prop :=
  forall v, pd_defaultValue d = Some v ->
    (pd_type d = Some "number" /\ is_number v = true)
    \/ (pd_type d <> Some "number" /\ is_string v = true).

(** The reading under which nested destructuring is unsupported: a
    parameter with a nested object pattern makes the simplifier fail. *)
Definition nested_destructuring_fails (param : Node) : Prop :=
  has_nested_pattern param = true ->
  exists kind e, simplifyParams [param] = Raise e /\ UnknownParamType kind e.

(** The reading under which a destructured parameter yields its synthetic
    parent and then exactly one descriptor for each property. *)
Definition one_descriptor_per_property (param : Node) : Prop :=
  forall loc props ds,
    param = ObjectPattern loc props ->
    parseDestructuredParam param = Ok ds ->
    List.length ds = S (List.length props).

(** The reading under which a present [defaultValue] is always a string. *)
Definition default_is_string (d : ParameterDescriptor) : Prop :=
  forall v, pd_defaultValue d = Some v -> is_string v = true.

(** The state from which [getNode] starts the traversal. *)
Definition initial : State := {| node := None; exported := None |}.

(** What the visitor assigns to [node] at a path, when it assigns, given
    the export recorded so far. *)
Definition candidate (lineNum : Z) (exported : option NodePath)
  (p : NodePath) : option FunctionNode :=
  match visitor lineNum {| node := None; exported := exported |} p with
  | Ok st => node st
  | Raise _ => None
  end.

(** Whether the visitor assigns to [node] at a path. *)
Definition matches (lineNum : Z) (p : NodePath) : bool :=
  match candidate lineNum None p with Some _ => true | None => false end.

(** What the visitor throws at a path, when it throws. *)
Definition fault (lineNum : Z) (p : NodePath) : option exn :=
  match visitor lineNum initial p with
  | Ok _ => None
  | Raise e => Some e
  end.

Definition is_export (n : Node) : bool :=
  match n with
  | ExportNamedDeclaration _ _ _ _ | ExportDefaultDeclaration _ _ => true
  | _ => false
  end.

(** The value of [exported] after the visitor has run over some paths. *)
Definition last_export (exported : option NodePath) (visited : list NodePath)
  : option NodePath :=
  fold_left (fun ex p => if is_export (path_node p) then Some p else ex)
            visited exported.

(** A declaration whose first declarator binds an arrow function, or an
    assignment of an arrow function to a member expression. *)
Definition binds_arrow (n : Node) : bool :=
  match n with
  | VariableDeclaration _
      (VariableDeclarator _ _ (Some (ArrowFunctionExpression _ _ _)) :: _) =>
      true
  | AssignmentExpression _ (MemberExpression _ _ _)
                         (ArrowFunctionExpression _ _ _) => true
  | _ => false
  end.

(** A declaration the visitor cannot read an initializer from: no
    declarator at all, or a first declarator without initializer. *)
Definition uninitialised (n : Node) : bool :=
  match n with
  | VariableDeclaration _ [] => true
  | VariableDeclaration _ (VariableDeclarator _ _ None :: _) => true
  | _ => false
  end.

(** The line [parse] looks at: its second argument, or 1 when omitted. *)
Definition target (lineNum : option Z) : Z :=
  match lineNum with Some l => l | None => 1 end.

(** A node in one of the three shapes the visitor assigns [node] for: a
    function declaration, a variable declaration whose first declarator is
    initialised with a function expression, an assignment of a function
    expression to a member expression. *)
Definition locatable (n : Node) : bool :=
  match n with
  | FunctionDeclaration _ _ _ _ => true
  | VariableDeclaration _
      (VariableDeclarator _ _ (Some (FunctionExpression _ _ _ _)) :: _) =>
      true
  | AssignmentExpression _ (MemberExpression _ _ _)
                         (FunctionExpression _ _ _ _) => true
  | _ => false
  end.

(** The two exceptions the visitor can throw. *)
Definition locator_errors : list exn :=
  [ TypeError "Cannot read property 'type' of null";
    TypeError "Cannot read property 'type' of undefined" ].

(** A parameter every part of which has a parser: a plain name, a rest
    element, a default that is one of the four literals, or an object
    pattern whose properties all hold such parameters. *)
Fixpoint supported (param : Node) : bool :=
  match param with
  | Identifier _ _ => true
  | RestElement _ _ => true
  | AssignmentPattern _ _ right' => is_literal right'
  | ObjectPattern _ props =>
      forallb (fun prop => match prop with
                           | ObjectProperty _ _ value => supported value
                           | _ => false
                           end) props
  | _ => false
  end.

(** The descriptor of a plain parameter, [{ name }]. *)
Definition plain (name : string) : ParameterDescriptor :=
  {| pd_name := JString name; pd_parent := None; pd_type := None;
     pd_defaultValue := None |}.

(** The values [type] is ever assigned. *)
Definition known_types : list string :=
  [ "string"; "number"; "array"; "object" ].

(** The shape every emitted descriptor has: a type out of the four names
    when it has one, a default only next to a type, and no parent other
    than the placeholder. *)
Definition wellformed (d : ParameterDescriptor) : Prop :=
  (forall t, pd_type d = Some t -> In t known_types)
  /\ (pd_defaultValue d <> None -> pd_type d <> None)
  /\ (pd_parent d = None \/ pd_parent d = Some DEFAULT_PARAM_NAME).

(** The two failures on unsupported syntax, with the kind they report: the
    [Error] of [getParamParser] for a parameter kind outside the table, the
    kind name thrown by [parseAssignmentParam] for a default outside the
    four literals. *)
Definition unsupported_kind_error (e : exn) : Prop :=
  (exists kind, ~ In kind param_kinds
                /\ e = Error ("Unknown param type: " ++ kind)%string)
  \/ (exists kind, ~ In kind literal_kinds /\ e = Thrown kind).

(** What reading [value.type] off a property without [value] throws. *)
Definition malformed_property_error : exn :=
  TypeError "Cannot read property 'type' of undefined".

(** What reading [node.id.name] off a nameless declaration throws. *)
Definition nameless_error : exn :=
  TypeError "Cannot read property 'name' of null".

(** The function a located statement stands for: the declaration itself,
    the initializer of the first declarator, the right-hand side of the
    assignment. *)
Definition located_function (n : Node) : option Node :=
  match n with
  | FunctionDeclaration _ _ _ _ => Some n
  | VariableDeclaration _ (VariableDeclarator _ _ (Some init) :: _) =>
      Some init
  | AssignmentExpression _ _ right' => Some right'
  | _ => None
  end.

(** Where a located statement takes the name from: the declaration's own
    identifier ([None] when it has none), the target of the first
    declarator, the last property of the member expression assigned to. *)
Definition declared_name (n : Node) : option jsval :=
  match n with
  | FunctionDeclaration _ id _ _ => option_map name_of id
  | VariableDeclaration _ (VariableDeclarator _ id _ :: _) =>
      Some (name_of id)
  | AssignmentExpression _ (MemberExpression _ _ property) _ =>
      Some (name_of property)
  | _ => None
  end.

Definition is_identifier (n : Node) : bool :=
  match n with Identifier _ _ => true | _ => false end.

(** A parameter in which every binding target is an identifier: the
    parameter itself, the left-hand side of a default, the argument of a
    rest element, and so for the values of the properties of an object
    pattern. *)
Fixpoint binds_identifiers (param : Node) : bool :=
  match param with
  | Identifier _ _ => true
  | AssignmentPattern _ left' _ => is_identifier left'
  | RestElement _ argument => is_identifier argument
  | ObjectPattern _ props =>
      forallb (fun prop => match prop with
                           | ObjectProperty _ _ value =>
                               binds_identifiers value
                           | _ => true
                           end) props
  | _ => true
  end.

(** The parameters the dispatch reaches below a parameter: the parameter
    itself or, for an object pattern, those reached through the values of
    its properties. *)
Fixpoint leaves (param : Node) : list Node :=
  match param with
  | ObjectPattern _ props =>
      flat_map (fun prop => match prop with
                            | ObjectProperty _ _ value => leaves value
                            | _ => []
                            end) props
  | _ => [param]
  end.

(** How a default expression is rendered: a string or numeric literal by
    its own value, an array or object literal by the empty notation. *)
Definition renders_default (right' : Node) (type : string) (v : jsval)
  : Prop :=
  (exists l value,
      right' = StringLiteral l value /\ type = "string" /\ v = JString value)
  \/ (exists l value,
         right' = NumericLiteral l value
         /\ type = "number" /\ v = JNumber value)
  \/ (exists l elements,
         right' = ArrayExpression l elements
         /\ type = "array" /\ v = JString "[]")
  \/ (exists l properties,
         right' = ObjectExpression l properties
         /\ type = "object" /\ v = JString "{}").

(** A descriptor whose [defaultValue], when it has one, renders the
    default expression of one of the given parameters, under that
    parameter's name and with the type that goes with the expression. *)
Definition default_rendered_from (sources : list Node)
  (d : ParameterDescriptor) : Prop :=
  forall v,
    pd_defaultValue d = Some v ->
    exists loc left' right' type,
      In (AssignmentPattern loc left' right') sources
      /\ pd_name d = name_of left'
      /\ pd_type d = Some type
      /\ renders_default right' type v.

(** ** Sample programs *)

Module Samples.

Definition span (l1 c1 l2 c2 : Z) : SourceLocation :=
  {| start := {| line := l1; column := c1 |};
     finish := {| line := l2; column := c2 |} |}.

Definition Program : other_kind := OtherKind "Program" eq_refl.
Definition BlockStatement : other_kind := OtherKind "BlockStatement" eq_refl.

Definition file (l : SourceLocation) (body : list Node) : File :=
  {| file_loc := l; program := Other Program l body |}.

(** [let x;] *)
Definition let_x : File :=
  file (span 1 0 1 6)
    [ VariableDeclaration (span 1 0 1 6)
        [ VariableDeclarator (span 1 4 1 5)
            (Identifier (span 1 4 1 5) "x") None ] ].

(** [function f() {}] on line 1, [let x;] on line 2 *)
Definition f_then_let_x : File :=
  file (span 1 0 2 6)
    [ FunctionDeclaration (span 1 0 1 16)
        (Some (Identifier (span 1 9 1 10) "f")) []
        (Other BlockStatement (span 1 14 1 16) []);
      VariableDeclaration (span 2 0 2 6)
        [ VariableDeclarator (span 2 4 2 5)
            (Identifier (span 2 4 2 5) "x") None ] ].

(** The parameter [{a: {b, c}}] of [function f({a: {b, c}}) {}] *)
Definition nested_pattern : Node :=
  ObjectPattern (span 1 11 1 22)
    [ ObjectProperty (span 1 12 1 21)
        (Identifier (span 1 12 1 13) "a")
        (ObjectPattern (span 1 15 1 21)
           [ ObjectProperty (span 1 16 1 17)
               (Identifier (span 1 16 1 17) "b")
               (Identifier (span 1 16 1 17) "b");
             ObjectProperty (span 1 19 1 20)
               (Identifier (span 1 19 1 20) "c")
               (Identifier (span 1 19 1 20) "c") ]) ].

(** [function f({a: {b, c}}) {}] *)
Definition f_nested : File :=
  file (span 1 0 1 27)
    [ FunctionDeclaration (span 1 0 1 27)
        (Some (Identifier (span 1 9 1 10) "f")) [ nested_pattern ]
        (Other BlockStatement (span 1 24 1 26) []) ].

(** The parameter [{x, y = 1}] *)
Definition flat_pattern : Node :=
  ObjectPattern (span 1 11 1 21)
    [ ObjectProperty (span 1 12 1 13)
        (Identifier (span 1 12 1 13) "x")
        (Identifier (span 1 12 1 13) "x");
      ObjectProperty (span 1 15 1 20)
        (Identifier (span 1 15 1 16) "y")
        (AssignmentPattern (span 1 15 1 20)
           (Identifier (span 1 15 1 16) "y")
           (NumericLiteral (span 1 19 1 20) 1%Q)) ].

(** The parameter [a = 1] *)
Definition a_is_1 : Node :=
  AssignmentPattern (span 1 11 1 16)
    (Identifier (span 1 11 1 12) "a")
    (NumericLiteral (span 1 15 1 16) 1%Q).

(** [function f(a = 1) {}] *)
Definition f_default_1 : File :=
  file (span 1 0 1 21)
    [ FunctionDeclaration (span 1 0 1 21)
        (Some (Identifier (span 1 9 1 10) "f")) [ a_is_1 ]
        (Other BlockStatement (span 1 18 1 20) []) ].

(** The parameter [[a, b]] and the parameter [a = b] *)
Definition array_pattern : Node :=
  ArrayPattern (span 1 11 1 17)
    [ Identifier (span 1 12 1 13) "a"; Identifier (span 1 15 1 16) "b" ].

Definition a_is_b : Node :=
  AssignmentPattern (span 1 11 1 16)
    (Identifier (span 1 11 1 12) "a")
    (Identifier (span 1 15 1 16) "b").

(** [export const f = function () {};] *)
Definition export_const_f : File :=
  file (span 1 0 1 32)
    [ ExportNamedDeclaration (span 1 0 1 32)
        (Some
           (VariableDeclaration (span 1 7 1 32)
              [ VariableDeclarator (span 1 13 1 31)
                  (Identifier (span 1 13 1 14) "f")
                  (Some
                     (FunctionExpression (span 1 17 1 31) None []
                        (Other BlockStatement (span 1 29 1 31) []))) ]))
        [] None ].

(** [export function f() {}] *)
Definition export_function_f : File :=
  file (span 1 0 1 23)
    [ ExportNamedDeclaration (span 1 0 1 23)
        (Some
           (FunctionDeclaration (span 1 7 1 23)
              (Some (Identifier (span 1 16 1 17) "f")) []
              (Other BlockStatement (span 1 21 1 23) [])))
        [] None ].

(** [const f = () => {};] *)
Definition const_arrow : File :=
  file (span 1 0 1 19)
    [ VariableDeclaration (span 1 0 1 19)
        [ VariableDeclarator (span 1 6 1 18)
            (Identifier (span 1 6 1 7) "f")
            (Some
               (ArrowFunctionExpression (span 1 10 1 18) []
                  (Other BlockStatement (span 1 16 1 18) []))) ] ].

(** [function f(a, b = "x", ...rest) {}] *)
Definition f_a_b_rest : File :=
  file (span 1 0 1 35)
    [ FunctionDeclaration (span 1 0 1 35)
        (Some (Identifier (span 1 9 1 10) "f"))
        [ Identifier (span 1 11 1 12) "a";
          AssignmentPattern (span 1 14 1 21)
            (Identifier (span 1 14 1 15) "b")
            (StringLiteral (span 1 18 1 21) "x");
          RestElement (span 1 23 1 30)
            (Identifier (span 1 26 1 30) "rest") ]
        (Other BlockStatement (span 1 32 1 34) []) ].

Definition ExpressionStatement : other_kind :=
  OtherKind "ExpressionStatement" eq_refl.

(** A blank line 1, then [obj.method = function () {};] on line 2 *)
Definition obj_method : File :=
  file (span 1 0 2 29)
    [ Other ExpressionStatement (span 2 0 2 29)
        [ AssignmentExpression (span 2 0 2 28)
            (MemberExpression (span 2 0 2 10)
               (Identifier (span 2 0 2 3) "obj")
               (Identifier (span 2 4 2 10) "method"))
            (FunctionExpression (span 2 13 2 28) None []
               (Other BlockStatement (span 2 26 2 28) [])) ] ].

(** [function outer() {] on line 1, [  function inner() {}] on line 2,
    [}] on line 3 *)
Definition nested_functions : File :=
  file (span 1 0 3 1)
    [ FunctionDeclaration (span 1 0 3 1)
        (Some (Identifier (span 1 9 1 14) "outer")) []
        (Other BlockStatement (span 1 17 3 1)
           [ FunctionDeclaration (span 2 2 2 21)
               (Some (Identifier (span 2 11 2 16) "inner")) []
               (Other BlockStatement (span 2 19 2 21) []) ]) ].

(** [export default function () {}] *)
Definition export_default_anonymous : File :=
  file (span 1 0 1 29)
    [ ExportDefaultDeclaration (span 1 0 1 29)
        (FunctionDeclaration (span 1 15 1 29) None []
           (Other BlockStatement (span 1 27 1 29) [])) ].

(** [const f = function g(a) {};] *)
Definition const_f_named_g : File :=
  file (span 1 0 1 28)
    [ VariableDeclaration (span 1 0 1 28)
        [ VariableDeclarator (span 1 6 1 27)
            (Identifier (span 1 6 1 7) "f")
            (Some
               (FunctionExpression (span 1 10 1 27)
                  (Some (Identifier (span 1 19 1 20) "g"))
                  [ Identifier (span 1 21 1 22) "a" ]
                  (Other BlockStatement (span 1 24 1 26) []))) ] ].

(** The parameter [{a} = {}] *)
Definition defaulted_pattern : Node :=
  AssignmentPattern (span 1 11 1 19)
    (ObjectPattern (span 1 11 1 14)
       [ ObjectProperty (span 1 12 1 13)
           (Identifier (span 1 12 1 13) "a")
           (Identifier (span 1 12 1 13) "a") ])
    (ObjectExpression (span 1 17 1 19) []).

(** No sample program binds a name twice, so the scope crawl returns on
    each of them. *)
Definition no_collision (ast : File) : result unit := Ok tt.

(** [let x, f = () => {};] *)
Definition let_x_and_arrow : File :=
  file (span 1 0 1 20)
    [ VariableDeclaration (span 1 0 1 20)
        [ VariableDeclarator (span 1 4 1 5)
            (Identifier (span 1 4 1 5) "x") None;
          VariableDeclarator (span 1 7 1 19)
            (Identifier (span 1 7 1 8) "f")
            (Some
               (ArrowFunctionExpression (span 1 11 1 19) []
                  (Other BlockStatement (span 1 17 1 19) []))) ] ].

(** The text [const f = () => {] on line 1, [  let x;] on line 2, [};] on
    line 3, and its AST *)
Definition arrow_around_let_x_text : string :=
  let newline := String "010"%char "" in
  ("const f = () => {" ++ newline ++ "  let x;" ++ newline ++ "};")%string.

Definition arrow_around_let_x : File :=
  file (span 1 0 3 2)
    [ VariableDeclaration (span 1 0 3 2)
        [ VariableDeclarator (span 1 6 3 1)
            (Identifier (span 1 6 1 7) "f")
            (Some
               (ArrowFunctionExpression (span 1 10 3 1) []
                  (Other BlockStatement (span 1 16 3 1)
                     [ VariableDeclaration (span 2 2 2 8)
                         [ VariableDeclarator (span 2 6 2 7)
                             (Identifier (span 2 6 2 7) "x") None ] ]))) ] ].

End Samples.

(** ** The module on the sample programs *)

Example parse_f_a_b_rest :
  parse (fun _ => Ok Samples.f_a_b_rest) Samples.no_collision
        "function f(a, b = 'x', ...rest) {}" None
  = Ok (Some
          {| fd_name := JString "f";
             fd_location := {| line := 1; column := 0 |};
             fd_params :=
               [ {| pd_name := JString "a"; pd_parent := None;
                    pd_type := None; pd_defaultValue := None |};
                 {| pd_name := JString "b"; pd_parent := None;
                    pd_type := Some "string";
                    pd_defaultValue := Some (JString "x") |};
                 {| pd_name := JString "rest"; pd_parent := None;
                    pd_type := Some "array"; pd_defaultValue := None |} ];
             fd_returns := {| returns := false |} |}).
Proof. reflexivity. Qed.

Example parse_obj_method :
  parse (fun _ => Ok Samples.obj_method) Samples.no_collision "" (Some 1)
  = Ok (Some
          {| fd_name := JString "method";
             fd_location := {| line := 1; column := 0 |};
             fd_params := [];
             fd_returns := {| returns := false |} |})
  /\ parse (fun _ => Ok Samples.obj_method) Samples.no_collision "" (Some 3)
     = Ok None.
Proof. split; reflexivity. Qed.

Example parse_syntax_error :
  parse (fun _ => Raise (SyntaxError "Unexpected token (1:9)"))
        Samples.no_collision
        "function (" None
  = Raise (SyntaxError "Unexpected token (1:9)").
Proof. reflexivity. Qed.

Example parse_export_function_f :
  parse (fun _ => Ok Samples.export_function_f) Samples.no_collision
        "export function f() {}" None
  = Ok (Some
          {| fd_name := JString "f";
             fd_location := {| line := 1; column := 0 |};
             fd_params := [];
             fd_returns := {| returns := false |} |}).
Proof. reflexivity. Qed.

(** With the cursor on line 1 both declarations qualify, the outer one on
    the line and the inner one a line below; the inner one is visited last
    and is the one described. *)
Example parse_nested_functions :
  parse (fun _ => Ok Samples.nested_functions) Samples.no_collision "" (Some 1)
  = Ok (Some
          {| fd_name := JString "inner";
             fd_location := {| line := 1; column := 2 |};
             fd_params := [];
             fd_returns := {| returns := false |} |})
  /\ parse (fun _ => Ok Samples.nested_functions) Samples.no_collision
           "" (Some 0)
     = Ok (Some
             {| fd_name := JString "outer";
                fd_location := {| line := 1; column := 0 |};
                fd_params := [];
                fd_returns := {| returns := false |} |}).
Proof. split; reflexivity. Qed.

(** A default-exported declaration without a name is located, at the
    location of the export, and then [simplifyNode] fails on [node.id.name]. *)
Example parse_export_default_anonymous :
  getNode Samples.no_collision Samples.export_default_anonymous 1
  = Ok (Some
          {| fn_node :=
               FunctionDeclaration (Samples.span 1 15 1 29) None []
                 (Other Samples.BlockStatement (Samples.span 1 27 1 29) []);
             fn_id := None;
             fn_loc := Samples.span 1 0 1 29 |})
  /\ parse (fun _ => Ok Samples.export_default_anonymous) Samples.no_collision
           "export default function () {}" None
     = Raise (TypeError "Cannot read property 'name' of null").
Proof. split; reflexivity. Qed.

(** ** The error monad and [reduce] *)

Lemma bind_Ok {A B} (m : result A) (k : A -> result B) (b : B) :
  bind m k = Ok b -> exists a, m = Ok a /\ k a = Ok b.
Proof.
  destruct m as [a|e]; simpl; intro H.
  - exists a. split; [reflexivity | exact H].
  - discriminate H.
Qed.

Lemma reduce_ext {A B} (f g : B -> A -> result B) (l : list A) :
  (forall acc x, In x l -> f acc x = g acc x) ->
  forall init, reduce f l init = reduce g l init.
Proof.
  induction l as [|x l IH]; intros Hfg init; simpl.
  - reflexivity.
  - rewrite (Hfg init x (or_introl eq_refl)).
    destruct (g init x) as [acc|e]; simpl; [|reflexivity].
    apply IH. intros acc' y Hy. apply Hfg. right. exact Hy.
Qed.

Lemma reduce_app {A B} (f : B -> A -> result B) (l1 l2 : list A) (init : B) :
  reduce f (l1 ++ l2) init = acc <- reduce f l1 init ;; reduce f l2 acc.
Proof.
  revert init. induction l1 as [|x l1 IH]; intro init; simpl.
  - reflexivity.
  - destruct (f init x) as [acc|e]; simpl; [apply IH | reflexivity].
Qed.

(** A [reduce] whose callback appends to the accumulator is a left-to-right
    map followed by a concatenation. *)
Lemma reduce_concat {A B C} (f : A -> result B) (g : B -> list C)
      (l : list A) (init : list C) :
  reduce (fun col x => ps <- f x ;; Ok (col ++ g ps)) l init
  = dss <- mapM f l ;; Ok (init ++ List.concat (map g dss)).
Proof.
  revert init. induction l as [|x l IH]; intro init; simpl.
  - rewrite app_nil_r. reflexivity.
  - destruct (f x) as [ps|e]; simpl; [|reflexivity].
    rewrite IH. destruct (mapM f l) as [dss|e]; simpl; [|reflexivity].
    rewrite app_assoc. reflexivity.
Qed.

Lemma mapM_Ok {A B} (f : A -> result B) (l : list A) (ys : list B) :
  mapM f l = Ok ys <-> Forall2 (fun x y => f x = Ok y) l ys.
Proof.
  revert ys. induction l as [|x l IH]; intro ys; simpl.
  - split; intro H.
    + injection H as <-. constructor.
    + inversion H. reflexivity.
  - split; intro H.
    + destruct (f x) as [y|e] eqn:Hx; simpl in H; [|discriminate].
      destruct (mapM f l) as [ys'|e] eqn:Hl; simpl in H; [|discriminate].
      injection H as <-. constructor; [exact Hx | apply IH; reflexivity].
    + inversion H as [|x' y l' ys' Hx Hl]; subst.
      rewrite Hx. simpl. apply IH in Hl. rewrite Hl. reflexivity.
Qed.

(** The first element on which the function throws decides the outcome. *)
Lemma mapM_Raise {A B} (f : A -> result B) (before after : list A) (x : A)
      (e : exn) :
  Forall (fun y => exists b, f y = Ok b) before ->
  f x = Raise e ->
  mapM f (before ++ x :: after) = Raise e.
Proof.
  intros Hbefore Hx. induction Hbefore as [|y before [b Hy] _ IH]; simpl.
  - rewrite Hx. reflexivity.
  - rewrite Hy. simpl. rewrite IH. reflexivity.
Qed.

(** Whatever throws somewhere in the list makes the whole map throw. *)
Lemma mapM_In_Raise {A B} (f : A -> result B) (l : list A) (x : A) (e : exn) :
  In x l -> f x = Raise e ->
  exists (y : A) (e' : exn), In y l /\ f y = Raise e' /\ mapM f l = Raise e'.
Proof.
  induction l as [|z l IH]; intros Hin Hx; [destruct Hin|].
  simpl. destruct (f z) as [b|e'] eqn:Hz.
  - destruct Hin as [->|Hin]; [congruence|].
    destruct (IH Hin Hx) as (y & e' & Hy & Hfy & Hl).
    exists y, e'. simpl. rewrite Hl. auto.
  - exists z, e'. simpl. auto.
Qed.

(** ** Kinds and constructors agree *)

Lemma other_kind_fresh (k : other_kind) : ~ In (kind_name k) modelled_kinds.
Proof.
  intro Hin. pose proof (kind_ok k) as Hok. unfold other_kind_ok in Hok.
  apply andb_true_iff in Hok. destruct Hok as [_ Hok].
  apply negb_true_iff in Hok.
  assert (existsb (String.eqb (kind_name k)) modelled_kinds = true) as Hex.
  { apply existsb_exists. exists (kind_name k). split; [exact Hin|].
    apply String.eqb_refl. }
  congruence.
Qed.

Ltac other_kind_absurd k :=
  exfalso; apply (other_kind_fresh k); simpl;
  match goal with H : kind_name k = _ |- _ => rewrite H end; tauto.

Lemma PARAM_PARSERS_None (paramType : string) :
  PARAM_PARSERS paramType = None <-> ~ In paramType param_kinds.
Proof.
  unfold PARAM_PARSERS, param_kinds. simpl.
  destruct (String.eqb_spec paramType "Identifier");
    [split; [discriminate | intro H; exfalso; apply H; auto]|].
  destruct (String.eqb_spec paramType "AssignmentPattern");
    [split; [discriminate | intro H; exfalso; apply H; auto]|].
  destruct (String.eqb_spec paramType "RestElement");
    [split; [discriminate | intro H; exfalso; apply H; auto]|].
  destruct (String.eqb_spec paramType "ObjectPattern");
    [split; [discriminate | intro H; exfalso; apply H; auto]|].
  split; [|reflexivity]. intros _ H. intuition congruence.
Qed.

Lemma type_of_ObjectPattern (n : Node) :
  type_of n = "ObjectPattern" <-> is_object_pattern n = true.
Proof.
  destruct n; simpl; split; intro H; try discriminate; try reflexivity.
  other_kind_absurd kind.
Qed.

Lemma type_of_literal (n : Node) :
  In (type_of n) literal_kinds <-> is_literal n = true.
Proof.
  unfold literal_kinds.
  destruct n; simpl; split; intro H; try reflexivity; try discriminate;
    try tauto;
    try (destruct H as [H|[H|[H|[H|[]]]]]; try discriminate H;
         symmetry in H; other_kind_absurd kind).
Qed.

(** ** Parameter Simplifier: structure of the output *)

Lemma simplifyParams_mapM (params : list Node) :
  simplifyParams params
  = dss <- mapM simplifyParam params ;; Ok (List.concat dss).
Proof.
  unfold simplifyParams.
  rewrite (reduce_ext _
             (fun col x => ps <- simplifyParam x ;; Ok (col ++ (fun y => y) ps))).
  - rewrite reduce_concat.
    destruct (mapM simplifyParam params) as [dss|e]; simpl;
      [rewrite map_id|]; reflexivity.
  - intros acc x _. unfold simplifyParam.
    destruct (getParamParser (type_of x)) as [pp|e]; reflexivity.
Qed.

Lemma parseDestructuredParam_mapM (loc : SourceLocation) (props : list Node) :
  parseDestructuredParam (ObjectPattern loc props)
  = dss <- mapM simplifyProperty props ;;
    Ok (synthetic_parent :: List.concat (map with_parent dss)).
Proof.
  cbn [parseDestructuredParam].
  rewrite (reduce_ext _
             (fun col x => ps <- simplifyProperty x ;; Ok (col ++ with_parent ps))).
  - rewrite reduce_concat. reflexivity.
  - intros acc x _. destruct x; try reflexivity.
    cbn [simplifyProperty]. unfold simplifyParam.
    destruct (getParamParser (type_of x2)) as [pp|e]; [|reflexivity].
    simpl. destruct pp; reflexivity.
Qed.

Lemma simplifyParam_ObjectPattern (loc : SourceLocation) (props : list Node) :
  simplifyParam (ObjectPattern loc props)
  = parseDestructuredParam (ObjectPattern loc props).
Proof. reflexivity. Qed.

Lemma with_parent_parent (ps : list ParameterDescriptor) :
  Forall (fun d => pd_parent d = Some DEFAULT_PARAM_NAME) (with_parent ps).
Proof.
  unfold with_parent. induction ps as [|p ps IH]; simpl; constructor; auto.
Qed.

Lemma Forall_concat {A} (P : A -> Prop) (ls : list (list A)) :
  Forall (Forall P) ls -> Forall P (List.concat ls).
Proof.
  induction 1 as [|l ls Hl _ IH]; simpl.
  - constructor.
  - apply Forall_app. split; assumption.
Qed.

(** A property whose value is not an object pattern expands to exactly one
    descriptor whenever it expands at all. *)
Lemma simplifyParam_single (param : Node) (ds : list ParameterDescriptor) :
  is_object_pattern param = false ->
  simplifyParam param = Ok ds -> List.length ds = 1%nat.
Proof.
  intros Hflat. unfold simplifyParam, getParamParser.
  destruct (PARAM_PARSERS (type_of param)) as [pp|] eqn:Hpp;
    [|discriminate].
  destruct param; simpl in Hpp; try discriminate; simpl.
  - injection Hpp as <-. simpl. intro H. injection H as <-. reflexivity.
  - injection Hpp as <-. simpl.
    destruct param2; simpl; try discriminate;
      intro H; injection H as <-; reflexivity.
  - injection Hpp as <-. simpl. intro H. injection H as <-. reflexivity.
  - destruct pp; simpl; try discriminate.
    intro H. injection H as <-. reflexivity.
Qed.

(** ** Parameter Simplifier: properties *)

(** C5. A parameter whose default is an array literal is described with
    type "array" and default "[]", one whose default is an object literal
    with type "object" and default "{}", whatever the literal contains;
    this holds for the parser itself and through the dispatch of
    [simplifyParams]. *)
Theorem container_defaults_are_emptied
        (loc l : SourceLocation) (left' : Node) (contents : list Node) :
  let described type defaultValue :=
    [ {| pd_name := name_of left'; pd_parent := None; pd_type := Some type;
         pd_defaultValue := Some (JString defaultValue) |} ] in
  parseAssignmentParam (AssignmentPattern loc left' (ArrayExpression l contents))
  = Ok (described "array" "[]")
  /\ parseAssignmentParam (AssignmentPattern loc left' (ObjectExpression l contents))
     = Ok (described "object" "{}")
  /\ simplifyParams [AssignmentPattern loc left' (ArrayExpression l contents)]
     = Ok (described "array" "[]")
  /\ simplifyParams [AssignmentPattern loc left' (ObjectExpression l contents)]
     = Ok (described "object" "{}").
Proof. repeat split. Qed.

(** C2, as stated, fails: [function f({a: {b, c}}) {}] has a nested object
    pattern and is simplified without any failure. *)
Lemma nested_destructuring_counterexample :
  ~ nested_destructuring_fails Samples.nested_pattern.
Proof.
  intro H. destruct (H eq_refl) as (kind & e & Hraise & _).
  vm_compute in Hraise. discriminate Hraise.
Qed.

(** C2, amended. A property whose value is itself an object pattern goes
    through the same dispatch as any parameter and is expanded by
    [parseDestructuredParam]; the enclosing parameter is simplified whenever
    all its properties are, the nested expansion taking its place among the
    children, and it fails only with the failure of one of its properties. *)
Theorem nested_destructuring_expands
        (loc l lp : SourceLocation) (props inner : list Node) (key : Node) :
  In (ObjectProperty l key (ObjectPattern lp inner)) props ->
  simplifyProperty (ObjectProperty l key (ObjectPattern lp inner))
  = parseDestructuredParam (ObjectPattern lp inner)
  /\ (forall dss, mapM simplifyProperty props = Ok dss ->
        parseDestructuredParam (ObjectPattern loc props)
        = Ok (synthetic_parent :: List.concat (map with_parent dss))
        /\ exists grandchildren,
             In (synthetic_parent :: grandchildren) dss)
  /\ (forall e, parseDestructuredParam (ObjectPattern loc props) = Raise e ->
        exists prop, In prop props /\ simplifyProperty prop = Raise e).
Proof.
  intro Hin. split; [reflexivity|]. split.
  - intros dss Hdss. rewrite parseDestructuredParam_mapM, Hdss.
    split; [reflexivity|].
    apply mapM_Ok in Hdss. clear loc.
    induction Hdss as [|prop ds props dss Hprop _ IH]; [destruct Hin|].
    destruct Hin as [->|Hin].
    + cbn [simplifyProperty] in Hprop.
      rewrite simplifyParam_ObjectPattern, parseDestructuredParam_mapM in Hprop.
      destruct (mapM simplifyProperty inner) as [inner_dss|e];
        [|discriminate Hprop].
      injection Hprop as <-. eexists. left. reflexivity.
    + destruct (IH Hin) as [g Hg]. exists g. right. exact Hg.
  - intros e. rewrite parseDestructuredParam_mapM. clear Hin.
    induction props as [|prop props IH]; simpl; [discriminate|].
    destruct (simplifyProperty prop) as [ds|e'] eqn:Hprop; simpl.
    + destruct (mapM simplifyProperty props) as [dss|e'] eqn:Hprops; simpl;
        [discriminate|].
      intro H. destruct (IH H) as (q & Hq & Hqe). exists q. auto.
    + intro H. injection H as <-. exists prop. auto.
Qed.

Lemma nested_destructuring_expands_witness :
  In (ObjectProperty (Samples.span 1 12 1 21)
        (Identifier (Samples.span 1 12 1 13) "a")
        (ObjectPattern (Samples.span 1 15 1 21) []))
     [ ObjectProperty (Samples.span 1 12 1 21)
         (Identifier (Samples.span 1 12 1 13) "a")
         (ObjectPattern (Samples.span 1 15 1 21) []) ]
  /\ parseDestructuredParam
       (ObjectPattern (Samples.span 1 11 1 22)
          [ ObjectProperty (Samples.span 1 12 1 21)
              (Identifier (Samples.span 1 12 1 13) "a")
              (ObjectPattern (Samples.span 1 15 1 21) []) ])
     = Ok [ synthetic_parent; assign_parent DEFAULT_PARAM_NAME synthetic_parent ].
Proof.
  split; [left; reflexivity|].
  exact (proj1 (proj1 (proj2 (nested_destructuring_expands
           (Samples.span 1 11 1 22) (Samples.span 1 12 1 21)
           (Samples.span 1 15 1 21)
           [ ObjectProperty (Samples.span 1 12 1 21)
               (Identifier (Samples.span 1 12 1 13) "a")
               (ObjectPattern (Samples.span 1 15 1 21) []) ]
           [] (Identifier (Samples.span 1 12 1 13) "a")
           (or_introl eq_refl)))
         [[synthetic_parent]] eq_refl)).
Defined.

(** C3, as stated, fails: the single property of [{a: {b, c}}] yields three
    descriptors after the synthetic parent, not one. *)
Lemma one_descriptor_per_property_counterexample :
  ~ one_descriptor_per_property Samples.nested_pattern.
Proof.
  intro H. specialize (H _ _ _ eq_refl eq_refl). discriminate H.
Qed.

(** C3, amended. A destructured parameter that is simplified yields the
    synthetic parent [{name: "Unknown", type: "object"}] and then, property
    by property from left to right, the descriptors of each property value
    with [parent] set to "Unknown": exactly one descriptor for a value that
    is not itself an object pattern, the whole expansion (again led by a
    synthetic parent) for one that is.  The list [simplifyParams] returns
    is the concatenation, in declaration order, of what each parameter
    yields. *)
Theorem destructured_param_layout :
  (forall loc props ds,
      parseDestructuredParam (ObjectPattern loc props) = Ok ds ->
      exists children : list (list ParameterDescriptor),
        ds = synthetic_parent :: List.concat children
        /\ Forall2
             (fun prop kids =>
                exists value ps,
                  value_of prop = Some value
                  /\ simplifyParam value = Ok ps
                  /\ kids = with_parent ps
                  /\ (is_object_pattern value = false ->
                      List.length kids = 1%nat)
                  /\ (is_object_pattern value = true ->
                      exists rest, ps = synthetic_parent :: rest))
             props children
        /\ Forall (fun d => pd_parent d = Some DEFAULT_PARAM_NAME)
                  (List.concat children))
  /\ (forall params ds,
        simplifyParams params = Ok ds ->
        exists dss,
          Forall2 (fun param yielded => simplifyParam param = Ok yielded)
                  params dss
          /\ ds = List.concat dss).
Proof.
  split.
  - intros loc props ds. rewrite parseDestructuredParam_mapM.
    destruct (mapM simplifyProperty props) as [dss|e] eqn:Hdss;
      [|discriminate].
    simpl. intro H. injection H as <-.
    exists (map with_parent dss). split; [reflexivity|]. split.
    + apply mapM_Ok in Hdss.
      induction Hdss as [|prop ps props dss Hprop _ IH]; simpl;
        constructor; [|exact IH].
      destruct prop; try discriminate Hprop.
      cbn [simplifyProperty] in Hprop.
      exists prop2, ps. repeat split; try assumption.
      * intro Hflat. unfold with_parent. rewrite length_map.
        exact (simplifyParam_single _ _ Hflat Hprop).
      * intro Hnested. destruct prop2; try discriminate Hnested.
        rewrite simplifyParam_ObjectPattern, parseDestructuredParam_mapM
          in Hprop.
        destruct (mapM simplifyProperty properties); [|discriminate Hprop].
        injection Hprop as <-. eexists. reflexivity.
    + apply Forall_concat. apply Forall_map.
      apply Forall_forall. intros ps _. apply with_parent_parent.
  - intros params ds. rewrite simplifyParams_mapM.
    destruct (mapM simplifyParam params) as [dss|e] eqn:Hdss; [|discriminate].
    simpl. intro H. injection H as <-.
    exists dss. split; [apply mapM_Ok; exact Hdss | reflexivity].
Qed.

Lemma destructured_param_layout_witness :
  exists children : list (list ParameterDescriptor),
    [ synthetic_parent;
      {| pd_name := JString "x"; pd_parent := Some "Unknown";
         pd_type := None; pd_defaultValue := None |};
      {| pd_name := JString "y"; pd_parent := Some "Unknown";
         pd_type := Some "number"; pd_defaultValue := Some (JNumber 1) |} ]
    = synthetic_parent :: List.concat children
    /\ List.length children = 2%nat.
Proof.
  destruct (proj1 destructured_param_layout
              (Samples.span 1 11 1 21)
              [ ObjectProperty (Samples.span 1 12 1 13)
                  (Identifier (Samples.span 1 12 1 13) "x")
                  (Identifier (Samples.span 1 12 1 13) "x");
                ObjectProperty (Samples.span 1 15 1 20)
                  (Identifier (Samples.span 1 15 1 16) "y")
                  (AssignmentPattern (Samples.span 1 15 1 20)
                     (Identifier (Samples.span 1 15 1 16) "y")
                     (NumericLiteral (Samples.span 1 19 1 20) 1%Q)) ]
              _ eq_refl)
    as (children & Hds & Hlayout & _).
  exists children. split; [exact Hds|].
  symmetry. exact (Forall2_length Hlayout).
Defined.

(** C7. A parameter whose kind is none of the four keys of [PARAM_PARSERS]
    makes [getParamParser] throw an [Error] whose message ends in that kind
    name; a defaulted parameter whose default is none of the four literal
    kinds makes [parseAssignmentParam] throw that kind name.  Either
    failure, at the top level or in a property of a destructured parameter,
    aborts [simplifyParams] and [simplifyNode]: they return the failure of
    the first parameter that fails and no descriptor. *)
Theorem unsupported_syntax_aborts :
  (forall param,
      ~ In (type_of param) param_kinds ->
      simplifyParam param
      = Raise (Error ("Unknown param type: " ++ type_of param)%string)
      /\ UnknownParamType (type_of param)
           (Error ("Unknown param type: " ++ type_of param)%string))
  /\ (forall loc left' right',
        ~ In (type_of right') literal_kinds ->
        simplifyParam (AssignmentPattern loc left' right')
        = Raise (Thrown (type_of right'))
        /\ UnknownParamType (type_of right') (Thrown (type_of right')))
  /\ (forall before param after e,
        Forall (fun p => exists ds, simplifyParam p = Ok ds) before ->
        simplifyParam param = Raise e ->
        simplifyParams (before ++ param :: after) = Raise e
        /\ forall n name,
             fn_id n = Some name ->
             params_of (fn_node n) = Some (before ++ param :: after) ->
             simplifyNode n = Raise e)
  /\ (forall loc before l key value after e,
        Forall (fun p => exists ds, simplifyProperty p = Ok ds) before ->
        simplifyParam value = Raise e ->
        parseDestructuredParam
          (ObjectPattern loc (before ++ ObjectProperty l key value :: after))
        = Raise e)
  /\ (forall params param e,
        In param params -> simplifyParam param = Raise e ->
        exists culprit e',
          In culprit params /\ simplifyParam culprit = Raise e'
          /\ simplifyParams params = Raise e').
Proof.
  split; [|split; [|split; [|split]]].
  - intros param Hkind. split; [|left; reflexivity].
    apply PARAM_PARSERS_None in Hkind.
    unfold simplifyParam, getParamParser. rewrite Hkind. reflexivity.
  - intros loc left' right' Hkind. split; [|right; reflexivity].
    assert (is_literal right' = false) as Hlit.
    { destruct (is_literal right') eqn:E; [|reflexivity].
      apply type_of_literal in E. contradiction. }
    destruct right'; try discriminate Hlit; reflexivity.
  - intros before param after e Hbefore Hparam.
    assert (simplifyParams (before ++ param :: after) = Raise e) as Habort.
    { rewrite simplifyParams_mapM.
      rewrite (mapM_Raise _ _ _ _ _ Hbefore Hparam). reflexivity. }
    split; [exact Habort|].
    intros n name Hid Hparams. unfold simplifyNode.
    rewrite Hid, Hparams, Habort. reflexivity.
  - intros loc before l key value after e Hbefore Hvalue.
    rewrite parseDestructuredParam_mapM.
    rewrite (mapM_Raise simplifyProperty before after
               (ObjectProperty l key value) e Hbefore Hvalue).
    reflexivity.
  - intros params param e Hin Hparam.
    destruct (mapM_In_Raise simplifyParam params param e Hin Hparam)
      as (culprit & e' & Hc & Hce & Hall).
    exists culprit, e'. repeat split; try assumption.
    rewrite simplifyParams_mapM, Hall. reflexivity.
Qed.

Lemma unsupported_syntax_aborts_witness :
  simplifyParam Samples.array_pattern
  = Raise (Error "Unknown param type: ArrayPattern")
  /\ simplifyParam Samples.a_is_b = Raise (Thrown "Identifier")
  /\ simplifyParams
       [Identifier (Samples.span 1 11 1 12) "x"; Samples.array_pattern]
     = Raise (Error "Unknown param type: ArrayPattern").
Proof.
  split; [|split].
  - refine (proj1 (proj1 unsupported_syntax_aborts Samples.array_pattern _)).
    simpl. intros [H|[H|[H|[H|[]]]]]; discriminate H.
  - refine (proj1 (proj1 (proj2 unsupported_syntax_aborts)
                     (Samples.span 1 11 1 16)
                     (Identifier (Samples.span 1 11 1 12) "a")
                     (Identifier (Samples.span 1 15 1 16) "b") _)).
    simpl. intros [H|[H|[H|[H|[]]]]]; discriminate H.
  - refine (proj1 (proj1 (proj2 (proj2 unsupported_syntax_aborts))
                     [Identifier (Samples.span 1 11 1 12) "x"]
                     Samples.array_pattern [] _ _ eq_refl)).
    constructor; [eexists; reflexivity | constructor].
Defined.

(** ** What [parse] returns *)

Lemma parse_Some (getAST : string -> result File)
      (crawl : File -> result unit) (code : string)
      (lineNum : option Z) (fd : FunctionDescriptor) :
  parse getAST crawl code lineNum = Ok (Some fd) ->
  exists ast n,
    getAST code = Ok ast
    /\ getNode crawl ast (match lineNum with Some l => l | None => 1 end)
       = Ok (Some n)
    /\ simplifyNode n = Ok fd.
Proof.
  unfold parse. intro H.
  apply bind_Ok in H. destruct H as (ast & Hast & H).
  apply bind_Ok in H. destruct H as ([n|] & Hfound & H); [|discriminate H].
  apply bind_Ok in H. destruct H as (fd' & Hfd & H).
  injection H as <-. exists ast, n. auto.
Qed.

Lemma simplifyNode_Ok (n : FunctionNode) (fd : FunctionDescriptor) :
  simplifyNode n = Ok fd ->
  exists name,
    fn_id n = Some name
    /\ (exists raw, params_of (fn_node n) = Some raw
                    /\ simplifyParams raw = Ok (fd_params fd))
    /\ fd_name fd = name
    /\ fd_location fd = simplifyLocation (fn_loc n)
    /\ fd_returns fd = {| returns := false |}.
Proof.
  unfold simplifyNode. destruct (fn_id n) as [name|]; [|discriminate].
  destruct (params_of (fn_node n)) as [raw|]; [|discriminate].
  intro H. apply bind_Ok in H. destruct H as (params & Hparams & H).
  injection H as <-. exists name. simpl.
  split; [reflexivity|]. split; [exists raw; auto|]. auto.
Qed.

(** C9. The insertion point of a located function is one line above the
    start of its location, but never above line 1, at the same column;
    [simplifyLocation] is a total function, and it is what [simplifyNode]
    and [parse] report. *)
Theorem insertion_point_is_line_above :
  (forall location,
      line (simplifyLocation location)
      = Z.max (line (start location) - 1) 1
      /\ column (simplifyLocation location) = column (start location)
      /\ 1 <= line (simplifyLocation location))
  /\ (forall getAST crawl code lineNum fd,
        parse getAST crawl code lineNum = Ok (Some fd) ->
        exists ast n,
          getAST code = Ok ast
          /\ getNode crawl ast (match lineNum with Some l => l | None => 1 end)
             = Ok (Some n)
          /\ line (fd_location fd) = Z.max (line (start (fn_loc n)) - 1) 1
          /\ column (fd_location fd) = column (start (fn_loc n))).
Proof.
  split.
  - intro location. simpl. repeat split. lia.
  - intros getAST crawl code lineNum fd H.
    destruct (parse_Some _ _ _ _ _ H) as (ast & n & Hast & Hnode & Hfd).
    destruct (simplifyNode_Ok _ _ Hfd) as (name & _ & _ & _ & Hloc & _).
    exists ast, n. rewrite Hloc. simpl. auto.
Qed.

Lemma insertion_point_is_line_above_witness :
  exists ast n,
    (fun _ : string => Ok Samples.export_function_f) "" = Ok ast
    /\ getNode Samples.no_collision ast 1 = Ok (Some n)
    /\ 1 = Z.max (line (start (fn_loc n)) - 1) 1
    /\ 0 = column (start (fn_loc n)).
Proof.
  exact (proj2 insertion_point_is_line_above
           (fun _ => Ok Samples.export_function_f) Samples.no_collision "" None
           {| fd_name := JString "f";
              fd_location := {| line := 1; column := 0 |};
              fd_params := [];
              fd_returns := {| returns := false |} |}
           eq_refl).
Defined.

(** ** The values of [defaultValue] *)

Lemma pattern_depth_value (loc l : SourceLocation) (key value : Node)
      (props : list Node) :
  In (ObjectProperty l key value) props ->
  (pattern_depth value < pattern_depth (ObjectPattern loc props))%nat.
Proof.
  intro Hin. cbn [pattern_depth]. apply Nat.lt_succ_r.
  set (depths := map _ props).
  assert (Forall (fun k => (k <= list_max depths)%nat) depths) as Hall
    by (apply list_max_le; apply Nat.le_refl).
  rewrite Forall_forall in Hall. apply Hall.
  subst depths. apply in_map_iff.
  exists (ObjectProperty l key value). split; [reflexivity | exact Hin].
Qed.

Lemma assign_parent_default (parent : string) (d : ParameterDescriptor) :
  default_matches_type d -> default_matches_type (assign_parent parent d).
Proof. intros H v Hv. exact (H v Hv). Qed.

Lemma simplifyParam_defaults_bounded (k : nat) :
  forall param ds,
    (pattern_depth param <= k)%nat ->
    simplifyParam param = Ok ds -> Forall default_matches_type ds.
Proof.
  induction k as [|k IH]; intros param ds Hdepth Hds.
  - destruct param; try (cbn [pattern_depth] in Hdepth; lia);
      try discriminate Hds.
    + injection Hds as <-. constructor; [|constructor]. intros v Hv. discriminate Hv.
    + unfold simplifyParam in Hds. simpl in Hds.
      destruct param2; try discriminate Hds; injection Hds as <-;
        (constructor; [|constructor]); intros v Hv; injection Hv as <-;
        [right|left|right|right]; split;
        try reflexivity; try discriminate.
    + injection Hds as <-. constructor; [|constructor]. intros v Hv. discriminate Hv.
    + unfold simplifyParam in Hds.
      destruct (getParamParser (type_of (Other kind loc children))) as [pp|];
        [|discriminate Hds].
      destruct pp; try discriminate Hds.
      injection Hds as <-. constructor; [|constructor]. intros v Hv. discriminate Hv.
  - destruct (is_object_pattern param) eqn:Hpat.
    + destruct param; try discriminate Hpat.
      rewrite simplifyParam_ObjectPattern, parseDestructuredParam_mapM in Hds.
      destruct (mapM simplifyProperty properties) as [dss|e] eqn:Hdss;
        [|discriminate Hds].
      injection Hds as <-. constructor.
      { intros v Hv. discriminate Hv. }
      apply Forall_concat. apply Forall_map.
      apply mapM_Ok in Hdss.
      assert (forall prop, In prop properties ->
                forall ps, simplifyProperty prop = Ok ps ->
                           Forall default_matches_type ps) as Hprops.
      { intros prop Hin ps Hps. destruct prop; try discriminate Hps.
        apply (IH prop2); [|exact Hps].
        pose proof (pattern_depth_value loc _ _ _ _ Hin). lia. }
      clear Hdepth IH Hpat.
      induction Hdss as [|prop ps props dss Hprop _ IHdss]; constructor.
      * unfold with_parent. apply Forall_map.
        eapply Forall_impl; [intro d; apply assign_parent_default|].
        apply (Hprops prop (or_introl eq_refl) ps Hprop).
      * apply IHdss. intros q Hq. apply Hprops. right. exact Hq.
    + apply (IH param ds); [|exact Hds].
      destruct param; try discriminate Hpat; cbn [pattern_depth]; lia.
Qed.

Lemma simplifyParams_defaults (params : list Node)
      (ds : list ParameterDescriptor) :
  simplifyParams params = Ok ds -> Forall default_matches_type ds.
Proof.
  rewrite simplifyParams_mapM.
  destruct (mapM simplifyParam params) as [dss|e] eqn:Hdss; [|discriminate].
  simpl. intro H. injection H as <-.
  apply Forall_concat. apply mapM_Ok in Hdss.
  induction Hdss as [|param ps params dss Hparam _ IH]; constructor;
    [|exact IH].
  exact (simplifyParam_defaults_bounded _ _ _ (Nat.le_refl _) Hparam).
Qed.

(** C6, as stated, fails: for [function f(a = 1) {}] the descriptor of [a]
    has the number 1 as its [defaultValue]. *)
Lemma numeric_default_counterexample :
  exists fd d,
    parse (fun _ => Ok Samples.f_default_1) Samples.no_collision
          "function f(a = 1) {}" (Some 1)
    = Ok (Some fd)
    /\ In d (fd_params fd)
    /\ ~ default_is_string d.
Proof.
  eexists. eexists. split; [reflexivity|]. split; [left; reflexivity|].
  intro H. specialize (H _ eq_refl). discriminate H.
Qed.

(** ** Function Locator: one visit *)

Ltac case_visitor :=
  repeat (cbn -[onLine];
          match goal with
          | |- context [if onLine ?n ?l then _ else _] =>
              destruct (onLine n l)
          | |- context [match ?x with _ => _ end] => is_var x; destruct x
          end).

(** What one visit does to the two captured variables. *)
Lemma visitor_spec (lineNum : Z) (st : State) (p : NodePath) :
  visitor lineNum st p
  = match fault lineNum p with
    | Some e => Raise e
    | None =>
        Ok {| node := match candidate lineNum (exported st) p with
                      | Some f => Some f
                      | None => node st
                      end;
              exported := if is_export (path_node p) then Some p
                          else exported st |}
    end.
Proof.
  destruct st as [found ex]. destruct p as [pos n].
  unfold fault, candidate, visitor, initial.
  cbn [path_node node exported].
  destruct n; cbn [is_export]; try reflexivity;
    case_visitor; reflexivity.
Qed.

Lemma candidate_matches (lineNum : Z) (ex : option NodePath) (p : NodePath) :
  candidate lineNum ex p = None <-> matches lineNum p = false.
Proof.
  unfold matches, candidate, visitor. destruct p as [pos n].
  cbn [path_node node exported].
  destruct n; try tauto; case_visitor; simpl; split; intro H;
    try reflexivity; try discriminate H.
Qed.

(** The visitor assigns only at a node on the target line or one line
    below it, and what it assigns is a function declaration or a function
    expression. *)
Lemma candidate_onLine (lineNum : Z) (ex : option NodePath) (p : NodePath)
      (f : FunctionNode) :
  candidate lineNum ex p = Some f ->
  onLine (path_node p) lineNum = true
  /\ (type_of (fn_node f) = "FunctionDeclaration"
      \/ type_of (fn_node f) = "FunctionExpression").
Proof.
  unfold candidate, visitor. destruct p as [pos n].
  cbn [path_node node exported].
  destruct n; try discriminate; case_visitor; try discriminate;
    simpl; intro H; injection H as <-; auto.
Qed.

(** The visitor throws exactly at an [uninitialised] declaration on the
    target line or one line below it. *)
Lemma fault_uninitialised (lineNum : Z) (p : NodePath) :
  fault lineNum p <> None
  <-> onLine (path_node p) lineNum = true
      /\ uninitialised (path_node p) = true.
Proof.
  unfold fault, visitor, initial. destruct p as [pos n].
  cbn [path_node node exported].
  destruct n; cbn [uninitialised]; case_visitor;
    (split; [intro H; try (exfalso; apply H; reflexivity); auto
            | intros [H1 H2]; try discriminate H1; try discriminate H2;
              discriminate]).
Qed.

(** ** Function Locator: the traversal *)

Lemma last_export_cons (ex : option NodePath) (p : NodePath)
      (visited : list NodePath) :
  last_export ex (p :: visited)
  = last_export (if is_export (path_node p) then Some p else ex) visited.
Proof. reflexivity. Qed.

(** The traversal completes when no visit throws. *)
Lemma traverse_total (lineNum : Z) (ps : list NodePath) :
  (forall p, In p ps -> fault lineNum p = None) ->
  forall st, exists st', reduce (visitor lineNum) ps st = Ok st'.
Proof.
  induction ps as [|p ps IH]; intros Hsafe st; simpl.
  - exists st. reflexivity.
  - rewrite visitor_spec, (Hsafe p (or_introl eq_refl)). simpl.
    apply IH. intros q Hq. apply Hsafe. right. exact Hq.
Qed.

(** The first visit that throws ends the traversal with what it throws. *)
Lemma traverse_fault (lineNum : Z) (before after : list NodePath)
      (p : NodePath) (e : exn) :
  (forall q, In q before -> fault lineNum q = None) ->
  fault lineNum p = Some e ->
  forall st, reduce (visitor lineNum) (before ++ p :: after) st = Raise e.
Proof.
  intros Hsafe Hp. induction before as [|q before IH]; intro st; simpl.
  - rewrite visitor_spec, Hp. reflexivity.
  - rewrite visitor_spec, (Hsafe q (or_introl eq_refl)). simpl.
    apply IH. intros r Hr. apply Hsafe. right. exact Hr.
Qed.

(** After a traversal that completes, [node] holds what the visitor
    assigned at the last visited path where it assigns, computed against
    the export recorded up to there; it is untouched when the visitor
    assigns nowhere. *)
Lemma traverse_last_match (lineNum : Z) (ps : list NodePath) :
  forall st st',
    reduce (visitor lineNum) ps st = Ok st' ->
    exported st' = last_export (exported st) ps
    /\ ((node st' = node st
         /\ forall q, In q ps -> matches lineNum q = false)
        \/ exists before p after f,
             ps = before ++ p :: after
             /\ candidate lineNum (last_export (exported st) before) p
                = Some f
             /\ node st' = Some f
             /\ forall q, In q after -> matches lineNum q = false).
Proof.
  induction ps as [|p ps IH]; intros st st' Hrun; simpl in Hrun.
  - injection Hrun as <-. split; [reflexivity|]. left.
    split; [reflexivity | intros q []].
  - rewrite visitor_spec in Hrun.
    destruct (fault lineNum p) as [e|]; [discriminate Hrun|].
    simpl in Hrun. apply IH in Hrun. cbn [node exported] in Hrun.
    destruct Hrun as [Hex Hnode]. split; [rewrite last_export_cons; exact Hex|].
    destruct Hnode as [[Hsame Hnone]|(before & q & after & f & Hps & Hc & Hf & Hafter)].
    + destruct (candidate lineNum (exported st) p) as [f|] eqn:Hcand.
      * right. exists [], p, ps, f. repeat split; assumption.
      * left. split; [exact Hsame|].
        intros q [<-|Hq]; [|apply Hnone; exact Hq].
        apply (candidate_matches lineNum (exported st)). exact Hcand.
    + right. exists (p :: before), q, after, f.
      rewrite Hps, last_export_cons. repeat split; assumption.
Qed.

(** When the Locator returns, the crawl returned and the traversal
    completed, and what is returned is the [node] it ended with. *)
Lemma getNode_Ok (crawl : File -> result unit) (ast : File) (lineNum : Z)
      (found : option FunctionNode) :
  getNode crawl ast lineNum = Ok found ->
  crawl ast = Ok tt
  /\ exists st,
       reduce (visitor lineNum) (paths ast)
              {| node := None; exported := None |} = Ok st
       /\ node st = found.
Proof.
  unfold getNode, traverse. intro H.
  apply bind_Ok in H. destruct H as (st & Hrun & Hst).
  apply bind_Ok in Hrun. destruct Hrun as ([] & Hcrawl & Hrun).
  injection Hst as Hst. split; [exact Hcrawl|]. exists st. auto.
Qed.

(** X1. On an AST on which the scope crawl returns and in which no visit
    throws, the Locator returns the function at the last visited path that
    matches, with its location and name as the visitor sets them, and
    [null] exactly when no visited path matches. *)
Lemma getNode_last_match (crawl : File -> result unit) (ast : File)
      (lineNum : Z) :
  crawl ast = Ok tt ->
  (forall p, In p (paths ast) -> fault lineNum p = None) ->
  exists found,
    getNode crawl ast lineNum = Ok found
    /\ (found = None <->
        forall q, In q (paths ast) -> matches lineNum q = false)
    /\ forall f, found = Some f ->
         exists before p after,
           paths ast = before ++ p :: after
           /\ candidate lineNum (last_export None before) p = Some f
           /\ onLine (path_node p) lineNum = true
           /\ forall q, In q after -> matches lineNum q = false.
Proof.
  intros Hcrawl Hsafe. unfold getNode, traverse. rewrite Hcrawl. cbn [bind].
  destruct (traverse_total lineNum (paths ast) Hsafe
              {| node := None; exported := None |}) as [st Hrun].
  rewrite Hrun. simpl. exists (node st). split; [reflexivity|].
  destruct (traverse_last_match _ _ _ _ Hrun) as [_ Hnode].
  cbn [node exported] in Hnode.
  destruct Hnode as [[Hsame Hnone]|(before & p & after & f & Hps & Hc & Hf & Hafter)].
  - rewrite Hsame. split; [tauto|]. intros f Hf. discriminate Hf.
  - rewrite Hf. split.
    + split; [discriminate|]. intro Hnone. exfalso.
      assert (matches lineNum p = false) as Hp
        by (apply Hnone; rewrite Hps; apply in_elt).
      apply (candidate_matches lineNum (last_export None before)) in Hp.
      congruence.
    + intros f' Hf'. injection Hf' as <-.
      exists before, p, after. repeat split; try assumption.
      exact (proj1 (candidate_onLine _ _ _ _ Hc)).
Qed.

Example nested_functions_last_match :
  exists found,
    getNode Samples.no_collision Samples.nested_functions 1 = Ok found
    /\ forall f, found = Some f ->
         exists before p after,
           paths Samples.nested_functions = before ++ p :: after
           /\ candidate 1 (last_export None before) p = Some f
           /\ onLine (path_node p) 1 = true
           /\ forall q, In q after -> matches 1 q = false.
Proof.
  destruct (getNode_last_match Samples.no_collision
              Samples.nested_functions 1)
    as (found & Hget & _ & Hlast).
  - reflexivity.
  - intros q Hq. simpl in Hq.
    repeat (destruct Hq as [<-|Hq]; [reflexivity|]). destruct Hq.
  - exists found. split; assumption.
Defined.

(** ** Function Locator: export wrappers *)

Lemma pos_eqb_refl (a : list Step) : pos_eqb a a = true.
Proof.
  induction a as [|[key i] a IH]; simpl; [reflexivity|].
  unfold step_eqb. simpl.
  rewrite String.eqb_refl, Nat.eqb_refl, IH. reflexivity.
Qed.

(** A function declaration that is the [declaration] of the export recorded
    last, and is on the target line, is returned with the location of the
    export statement. *)
Lemma exported_function_adopts_location
      (lineNum : Z) (e : NodePath) (pos : list Step)
      (loc : SourceLocation) (id : option Node) (params : list Node)
      (body : Node) :
  let d := FunctionDeclaration loc id params body in
  declaration_of e = Some {| path_pos := pos; path_node := d |} ->
  onLine d lineNum = true ->
  candidate lineNum (Some e) {| path_pos := pos; path_node := d |}
  = Some {| fn_node := d; fn_id := option_map name_of id;
            fn_loc := loc_of (path_node e) |}.
Proof.
  intros d Hdecl Hline. unfold candidate, visitor.
  cbn [path_node exported node]. fold d. rewrite Hline.
  unfold declaration_is. rewrite Hdecl. unfold same_node.
  cbn [path_pos]. rewrite pos_eqb_refl. reflexivity.
Qed.

(** The entry for variable declarations never consults [exported]. *)
Lemma variable_declaration_ignores_export
      (lineNum : Z) (ex ex' : option NodePath) (pos : list Step)
      (loc : SourceLocation) (declarations : list Node) :
  candidate lineNum ex
    {| path_pos := pos; path_node := VariableDeclaration loc declarations |}
  = candidate lineNum ex'
      {| path_pos := pos; path_node := VariableDeclaration loc declarations |}.
Proof.
  unfold candidate, visitor. case_visitor; reflexivity.
Qed.

(** Every node is visited before anything below it. *)
Lemma preorder_head (pos : list Step) (n : Node) :
  exists below,
    preorder pos n = {| path_pos := pos; path_node := n |} :: below.
Proof. destruct n; eexists; reflexivity. Qed.

(** The payload of an export wrapper is visited right after the wrapper. *)
Lemma export_then_declaration (e d : NodePath) :
  declaration_of e = Some d ->
  exists below,
    preorder (path_pos e) (path_node e) = e :: d :: below.
Proof.
  destruct e as [pos n]. unfold declaration_of. cbn [path_pos path_node].
  destruct n; try discriminate.
  - match goal with
    | |- context [match ?o with Some _ => _ | None => _ end] =>
        destruct o as [payload|]; [|discriminate]
    end.
    intro H. injection H as <-. cbn [preorder].
    destruct (preorder_head (pos ++ [("declaration", 0%nat)]) payload)
      as [below ->].
    eexists. reflexivity.
  - intro H. injection H as <-. cbn [preorder].
    match goal with
    | |- context [preorder (pos ++ [("declaration", 0%nat)]) ?c] =>
        destruct (preorder_head (pos ++ [("declaration", 0%nat)]) c)
          as [below ->]
    end.
    eexists. reflexivity.
Qed.

(** A traversal over paths where nothing matches and nothing throws leaves
    [node] as it was. *)
Lemma traverse_quiet (lineNum : Z) (ps : list NodePath) (st : State) :
  (forall q, In q ps -> fault lineNum q = None) ->
  (forall q, In q ps -> matches lineNum q = false) ->
  exists st', reduce (visitor lineNum) ps st = Ok st' /\ node st' = node st.
Proof.
  intros Hsafe Hquiet.
  destruct (traverse_total lineNum ps Hsafe st) as [st' Hrun].
  exists st'. split; [exact Hrun|].
  destruct (traverse_last_match _ _ _ _ Hrun) as [_ Hnode].
  destruct Hnode as [[Hsame _]|(before & p & after & f & Hps & Hc & _ & _)];
    [exact Hsame|].
  exfalso.
  assert (matches lineNum p = false) as Hp
    by (apply Hquiet; rewrite Hps; apply in_elt).
  apply (candidate_matches _ (last_export (exported st) before)) in Hp.
  congruence.
Qed.

(** X2. When the scope crawl returns and no visit throws, an exported
    function declaration on the target line, with no match after it, is
    what the Locator returns, at the location of the export statement. *)
Lemma exported_function_declaration_located
      (crawl : File -> result unit)
      (ast : File) (lineNum : Z) (before after : list NodePath)
      (e p : NodePath) (loc : SourceLocation) (id : option Node)
      (params : list Node) (body : Node) :
  crawl ast = Ok tt ->
  paths ast = before ++ e :: p :: after ->
  is_export (path_node e) = true ->
  declaration_of e = Some p ->
  path_node p = FunctionDeclaration loc id params body ->
  onLine (path_node p) lineNum = true ->
  (forall q, In q (paths ast) -> fault lineNum q = None) ->
  (forall q, In q after -> matches lineNum q = false) ->
  getNode crawl ast lineNum
  = Ok (Some {| fn_node := path_node p; fn_id := option_map name_of id;
                fn_loc := loc_of (path_node e) |}).
Proof.
  intros Hcrawl Hpaths Hexport Hdecl Hnode Hline Hsafe Hafter.
  unfold getNode, traverse. rewrite Hcrawl. cbn [bind].
  rewrite Hpaths in *. rewrite reduce_app.
  destruct (traverse_total lineNum before
              (fun q Hq => Hsafe q (in_or_app _ _ q (or_introl Hq)))
              {| node := None; exported := None |}) as [st1 Hbefore].
  rewrite Hbefore. cbn [bind reduce].
  rewrite visitor_spec, (Hsafe e (in_elt e before (p :: after))), Hexport.
  cbn [bind exported node].
  assert (In p (before ++ e :: p :: after)) as Hp_in
    by (apply in_or_app; right; right; left; reflexivity).
  rewrite visitor_spec, (Hsafe p Hp_in). clear Hp_in.
  cbn [bind exported node].
  destruct p as [pos n]. cbn [path_node] in *. subst n.
  rewrite (exported_function_adopts_location lineNum e pos loc id params body
             Hdecl Hline).
  cbn [is_export].
  match goal with
  | |- context [reduce _ after ?st] =>
      destruct (traverse_quiet lineNum after st) as (st' & Hrun & Hsame)
  end.
  - intros q Hq. apply Hsafe. apply in_or_app. right. right. right. exact Hq.
  - exact Hafter.
  - rewrite Hrun. cbn [bind]. rewrite Hsame. reflexivity.
Qed.

Example export_function_f_located :
  getNode Samples.no_collision Samples.export_function_f 1
  = Ok (Some
          {| fn_node :=
               FunctionDeclaration (Samples.span 1 7 1 23)
                 (Some (Identifier (Samples.span 1 16 1 17) "f")) []
                 (Other Samples.BlockStatement (Samples.span 1 21 1 23) []);
             fn_id := Some (JString "f");
             fn_loc := Samples.span 1 0 1 23 |}).
Proof.
  refine (exported_function_declaration_located
            Samples.no_collision
            Samples.export_function_f 1 [_] [_; _] _ _ _ _ _ _
            eq_refl eq_refl eq_refl eq_refl eq_refl eq_refl _ _).
  - intros q Hq. simpl in Hq.
    repeat (destruct Hq as [<-|Hq]; [reflexivity|]). destruct Hq.
  - intros q Hq. simpl in Hq.
    repeat (destruct Hq as [<-|Hq]; [reflexivity|]). destruct Hq.
Defined.

(** After a crawl that returns, the Locator throws what the first throwing
    visit throws. *)
Lemma getNode_fault (crawl : File -> result unit) (ast : File) (lineNum : Z)
      (before after : list NodePath) (p : NodePath) (e : exn) :
  crawl ast = Ok tt ->
  paths ast = before ++ p :: after ->
  (forall q, In q before -> fault lineNum q = None) ->
  fault lineNum p = Some e ->
  getNode crawl ast lineNum = Raise e.
Proof.
  intros Hcrawl Hpaths Hsafe Hp. unfold getNode, traverse.
  rewrite Hcrawl. cbn [bind].
  rewrite Hpaths, (traverse_fault lineNum before after p e Hsafe Hp).
  reflexivity.
Qed.

(** ** Function Locator and Orchestrator: properties *)

(** C1. The code departs from the specification: in [let x;] nothing on
    line 1 is matched by the Locator, yet [parse] at line 1 throws a
    [TypeError] instead of returning [null]. *)
Theorem uninitialised_declaration_makes_parse_throw :
  forallb (fun p => negb (matches 1 p)) (paths Samples.let_x) = true
  /\ parse (fun _ => Ok Samples.let_x) Samples.no_collision "let x;" (Some 1)
     = Raise (TypeError "Cannot read property 'type' of null").
Proof. split; reflexivity. Qed.

(** C4. The code departs from the specification: with [function f() {}] on
    line 1 and [let x;] on line 2 the declaration of [f] matches line 1,
    yet the Locator throws a [TypeError] instead of returning it; and on
    [let x;] alone, where nothing matches, it throws instead of returning
    [null]. *)
Theorem locator_throws_at_uninitialised_declaration :
  existsb (matches 1) (paths Samples.f_then_let_x) = true
  /\ getNode Samples.no_collision Samples.f_then_let_x 1
     = Raise (TypeError "Cannot read property 'type' of null")
  /\ forallb (fun p => negb (matches 1 p)) (paths Samples.let_x) = true
  /\ getNode Samples.no_collision Samples.let_x 1
     = Raise (TypeError "Cannot read property 'type' of null").
Proof. repeat split; reflexivity. Qed.

(** C8. The code departs from the specification: in
    [export const f = function () {};] the variable declaration is the
    payload of the export that starts at column 0, yet the function is
    returned with the location of the declaration, column 7, and that is
    the column [parse] reports.  The entry for variable declarations gives
    the same result whatever export has been recorded. *)
Theorem exported_function_expression_keeps_own_location :
  map (fun p => (type_of (path_node p), start (loc_of (path_node p))))
      (firstn 3 (paths Samples.export_const_f))
  = [ ("Program", {| line := 1; column := 0 |});
      ("ExportNamedDeclaration", {| line := 1; column := 0 |});
      ("VariableDeclaration", {| line := 1; column := 7 |}) ]
  /\ getNode Samples.no_collision Samples.export_const_f 1
     = Ok (Some {| fn_node :=
                     FunctionExpression (Samples.span 1 17 1 31) None []
                       (Other Samples.BlockStatement (Samples.span 1 29 1 31) []);
                   fn_id := Some (JString "f");
                   fn_loc := Samples.span 1 7 1 32 |})
  /\ parse (fun _ => Ok Samples.export_const_f) Samples.no_collision
           "export const f = function () {};" (Some 1)
     = Ok (Some {| fd_name := JString "f";
                   fd_location := {| line := 1; column := 7 |};
                   fd_params := [];
                   fd_returns := {| returns := false |} |})
  /\ forall lineNum ex ex' pos loc declarations,
       candidate lineNum ex
         {| path_pos := pos;
            path_node := VariableDeclaration loc declarations |}
       = candidate lineNum ex'
           {| path_pos := pos;
              path_node := VariableDeclaration loc declarations |}.
Proof.
  repeat split; try reflexivity.
  intros. apply variable_declaration_ignores_export.
Qed.

(** C10. The code departs from the specification: in
    [let x, f = () => {};], and in [const f = () => {] followed by
    [let x;] on the next line, an arrow function is bound by a declarator
    on line 1 and no visited node is matched, yet [parse] at line 1 throws
    a [TypeError] instead of returning [null]. *)
Theorem arrow_binding_beside_uninitialised_declaration_throws :
  existsb (fun p => (type_of (path_node p) =? "ArrowFunctionExpression")
                    && onLine (path_node p) 1)
          (paths Samples.let_x_and_arrow) = true
  /\ forallb (fun p => negb (matches 1 p)) (paths Samples.let_x_and_arrow)
     = true
  /\ parse (fun _ => Ok Samples.let_x_and_arrow) Samples.no_collision
           "let x, f = () => {};" (Some 1)
     = Raise (TypeError "Cannot read property 'type' of null")
  /\ existsb (fun p => binds_arrow (path_node p) && onLine (path_node p) 1)
             (paths Samples.arrow_around_let_x) = true
  /\ forallb (fun p => negb (matches 1 p)) (paths Samples.arrow_around_let_x)
     = true
  /\ parse (fun _ => Ok Samples.arrow_around_let_x) Samples.no_collision
           Samples.arrow_around_let_x_text (Some 1)
     = Raise (TypeError "Cannot read property 'type' of null").
Proof. repeat split; reflexivity. Qed.

(** X16. The Locator never matches an arrow function.  A visit to a
    declaration whose first declarator binds an arrow function, or to an
    assignment of an arrow function to a member expression, leaves both
    captured variables as they were, on every line; whatever the Locator
    returns is a function declaration or a function expression, never an
    arrow function; when, apart from such constructs, the visitor assigns
    nowhere, [parse] returns no descriptor, and it returns [null] when
    moreover the scope crawl returns and the visitor throws nowhere. *)
Theorem arrow_functions_are_not_located :
  (forall lineNum st p,
      binds_arrow (path_node p) = true -> visitor lineNum st p = Ok st)
  /\ (forall crawl ast lineNum f,
        getNode crawl ast lineNum = Ok (Some f) ->
        type_of (fn_node f) <> "ArrowFunctionExpression"
        /\ (type_of (fn_node f) = "FunctionDeclaration"
            \/ type_of (fn_node f) = "FunctionExpression"))
  /\ (forall getAST crawl code lineNum ast,
        getAST code = Ok ast ->
        (forall p, In p (paths ast) ->
                   binds_arrow (path_node p) = true
                   \/ matches (target lineNum) p = false) ->
        forall fd, parse getAST crawl code lineNum <> Ok (Some fd))
  /\ (forall getAST crawl code lineNum ast,
        getAST code = Ok ast ->
        crawl ast = Ok tt ->
        (forall p, In p (paths ast) ->
                   binds_arrow (path_node p) = true
                   \/ (matches (target lineNum) p = false
                       /\ fault (target lineNum) p = None)) ->
        parse getAST crawl code lineNum = Ok None).
Proof.
  assert (forall lineNum st p,
             binds_arrow (path_node p) = true -> visitor lineNum st p = Ok st)
    as Hvisit.
  { intros lineNum [found ex] [pos n] Harrow.
    unfold binds_arrow in Harrow. cbn [path_node] in Harrow.
    unfold visitor. cbn [path_node].
    destruct n; try discriminate Harrow;
      repeat match type of Harrow with
             | context [match ?x with _ => _ end] =>
                 destruct x; try discriminate Harrow
             end;
      destruct (onLine _ lineNum); reflexivity. }
  split; [exact Hvisit|]. split; [|split].
  - intros crawl ast lineNum f Hget.
    destruct (getNode_Ok _ _ _ _ Hget) as (_ & st & Hrun & Hst).
    destruct (traverse_last_match _ _ _ _ Hrun) as [_ Hnode].
    cbn [node exported] in Hnode.
    destruct Hnode as [[Hsame _]|(before & p & after & f' & _ & Hc & Hf & _)];
      [congruence|].
    assert (f' = f) as -> by congruence.
    destruct (candidate_onLine _ _ _ _ Hc) as [_ Hkind].
    split; [|exact Hkind].
    destruct Hkind as [-> | ->]; discriminate.
  - intros getAST crawl code lineNum ast Hast Hquiet fd Hfd.
    destruct (parse_Some _ _ _ _ _ Hfd) as (ast' & n & Hast' & Hget & _).
    assert (ast' = ast) as -> by congruence.
    fold (target lineNum) in Hget.
    destruct (getNode_Ok _ _ _ _ Hget) as (_ & st & Hrun & Hst).
    destruct (traverse_last_match _ _ _ _ Hrun) as [_ Hnode].
    cbn [node exported] in Hnode.
    destruct Hnode as [[Hsame _]|(before & p & after & f & Hps & Hc & _ & _)];
      [congruence|].
    assert (matches (target lineNum) p = false) as Hp.
    { destruct (Hquiet p) as [Harrow|H]; [rewrite Hps; apply in_elt| |exact H].
      unfold matches, candidate. rewrite (Hvisit _ _ p Harrow). reflexivity. }
    apply (candidate_matches _ (last_export None before)) in Hp. congruence.
  - intros getAST crawl code lineNum ast Hast Hcrawl Hquiet.
    assert (forall p, In p (paths ast) ->
                      matches (target lineNum) p = false
                      /\ fault (target lineNum) p = None) as Hinert.
    { intros p Hp. destruct (Hquiet p Hp) as [Harrow|H]; [|exact H].
      unfold matches, candidate, fault.
      rewrite !(Hvisit _ _ p Harrow). split; reflexivity. }
    unfold parse. fold (target lineNum). rewrite Hast. simpl.
    unfold getNode, traverse. rewrite Hcrawl. cbn [bind].
    destruct (traverse_total (target lineNum) (paths ast)
                (fun p Hp => proj2 (Hinert p Hp))
                {| node := None; exported := None |}) as [st Hrun].
    rewrite Hrun. simpl.
    destruct (traverse_last_match _ _ _ _ Hrun) as [_ Hnode].
    cbn [node exported] in Hnode.
    destruct Hnode as [[-> _]|(before & p & after & f & Hps & Hc & _ & _)];
      [reflexivity|].
    exfalso.
    assert (matches (target lineNum) p = false) as Hp
      by (apply Hinert; rewrite Hps; apply in_elt).
    apply (candidate_matches _ (last_export None before)) in Hp. congruence.
Qed.

Lemma arrow_functions_are_not_located_witness :
  parse (fun _ => Ok Samples.const_arrow) Samples.no_collision
        "const f = () => {};" (Some 1)
  = Ok None.
Proof.
  refine (proj2 (proj2 (proj2 arrow_functions_are_not_located))
            (fun _ => Ok Samples.const_arrow) Samples.no_collision
            "const f = () => {};" (Some 1)
            Samples.const_arrow eq_refl eq_refl _).
  intros p Hp. simpl in Hp.
  repeat (destruct Hp as [<-|Hp];
          [first [left; reflexivity | right; split; reflexivity]|]).
  destruct Hp.
Defined.

(** ** Further properties of the Locator *)

(** The visitor assigns exactly at a [locatable] node on the target line or
    one line below it. *)
Lemma matches_locatable (lineNum : Z) (p : NodePath) :
  matches lineNum p
  = onLine (path_node p) lineNum && locatable (path_node p).
Proof.
  unfold matches, candidate, visitor. destruct p as [pos n].
  cbn [path_node node exported].
  destruct n; cbn [locatable]; rewrite ?andb_false_r; try reflexivity;
    case_visitor; reflexivity.
Qed.

Lemma fault_messages (lineNum : Z) (p : NodePath) (e : exn) :
  fault lineNum p = Some e -> In e locator_errors.
Proof.
  unfold fault, visitor, initial. destruct p as [pos n].
  cbn [path_node node exported].
  destruct n; try discriminate; case_visitor; try discriminate;
    intro H; injection H as <-; simpl; auto.
Qed.

(** A traversal that completes met no throwing visit. *)
Lemma traverse_Ok_safe (lineNum : Z) (ps : list NodePath) :
  forall st st',
    reduce (visitor lineNum) ps st = Ok st' ->
    forall p, In p ps -> fault lineNum p = None.
Proof.
  induction ps as [|q ps IH]; intros st st' Hrun p Hp; [destruct Hp|].
  simpl in Hrun. rewrite visitor_spec in Hrun.
  destruct (fault lineNum q) as [e|] eqn:Hq; [discriminate Hrun|].
  destruct Hp as [<-|Hp]; [exact Hq|].
  simpl in Hrun. exact (IH _ _ Hrun p Hp).
Qed.

(** A traversal that throws, throws what some visit throws. *)
Lemma traverse_Raise (lineNum : Z) (ps : list NodePath) :
  forall st e,
    reduce (visitor lineNum) ps st = Raise e ->
    exists p, In p ps /\ fault lineNum p = Some e.
Proof.
  induction ps as [|q ps IH]; intros st e Hrun; [discriminate Hrun|].
  simpl in Hrun. rewrite visitor_spec in Hrun.
  destruct (fault lineNum q) as [e'|] eqn:Hq.
  - injection Hrun as <-. exists q. split; [left; reflexivity | exact Hq].
  - simpl in Hrun. destruct (IH _ _ Hrun) as (p & Hp & Hfault).
    exists p. split; [right; exact Hp | exact Hfault].
Qed.

(** Among visits that throw there is a first one. *)
Lemma first_fault (lineNum : Z) (ps : list NodePath) (p : NodePath) :
  In p ps -> fault lineNum p <> None ->
  exists before q after e,
    ps = before ++ q :: after
    /\ (forall r, In r before -> fault lineNum r = None)
    /\ fault lineNum q = Some e.
Proof.
  induction ps as [|r ps IH]; intros Hin Hp; [destruct Hin|].
  destruct (fault lineNum r) as [e|] eqn:Hr.
  - exists [], r, ps, e. split; [reflexivity|]. split; [intros ? []|exact Hr].
  - destruct Hin as [->|Hin]; [congruence|].
    destruct (IH Hin Hp) as (before & q & after & e & -> & Hsafe & Hq).
    exists (r :: before), q, after, e. split; [reflexivity|].
    split; [|exact Hq].
    intros x [<-|Hx]; [exact Hr | exact (Hsafe x Hx)].
Qed.

(** What the Locator throws is what the crawl throws or, after a crawl
    that returns, what some visit throws. *)
Lemma getNode_Raise (crawl : File -> result unit) (ast : File) (lineNum : Z)
      (e : exn) :
  getNode crawl ast lineNum = Raise e ->
  crawl ast = Raise e
  \/ (crawl ast = Ok tt
      /\ exists p, In p (paths ast) /\ fault lineNum p = Some e).
Proof.
  intro Hget. unfold getNode, traverse in Hget.
  destruct (crawl ast) as [[]|e0]; cbn [bind] in Hget.
  - right. split; [reflexivity|].
    destruct (reduce (visitor lineNum) (paths ast)
                {| node := None; exported := None |}) as [st|e'] eqn:Hrun;
      [discriminate Hget|].
    injection Hget as <-. exact (traverse_Raise _ _ _ _ Hrun).
  - left. injection Hget as <-. reflexivity.
Qed.

(** X3. The Locator throws exactly when the scope crawl throws or the
    traversal meets, on the target line or one line below it, a variable
    declaration whose first declarator has no initializer (or that has no
    declarator).  What it throws is what the crawl throws or else a
    [TypeError] of the visitor, whatever was matched before. *)
Theorem getNode_throws_iff (crawl : File -> result unit) (ast : File)
        (lineNum : Z) :
  ((exists e, getNode crawl ast lineNum = Raise e)
   <-> (exists e, crawl ast = Raise e)
       \/ exists p,
            In p (paths ast)
            /\ onLine (path_node p) lineNum = true
            /\ uninitialised (path_node p) = true)
  /\ (forall e, crawl ast = Raise e -> getNode crawl ast lineNum = Raise e)
  /\ (forall e, getNode crawl ast lineNum = Raise e ->
                crawl ast = Raise e \/ In e locator_errors).
Proof.
  assert (forall e, crawl ast = Raise e ->
                    getNode crawl ast lineNum = Raise e) as Hcrawl.
  { intros e He. unfold getNode, traverse. rewrite He. reflexivity. }
  split; [split|split; [exact Hcrawl|]].
  - intros [e Hget].
    destruct (getNode_Raise _ _ _ _ Hget) as [Hc|(_ & p & Hp & Hfault)].
    + left. exists e. exact Hc.
    + right. exists p. split; [exact Hp|].
      apply fault_uninitialised. congruence.
  - intros [[e He]|(p & Hp & Hline & Hun)].
    + exists e. exact (Hcrawl e He).
    + destruct (crawl ast) as [[]|e0] eqn:Hc.
      * destruct (first_fault lineNum (paths ast) p Hp) as
            (before & q & after & e & Hpaths & Hsafe & Hq).
        { apply fault_uninitialised. split; assumption. }
        exists e.
        exact (getNode_fault crawl ast lineNum before after q e
                 Hc Hpaths Hsafe Hq).
      * exists e0. exact (Hcrawl e0 eq_refl).
  - intros e Hget.
    destruct (getNode_Raise _ _ _ _ Hget) as [Hc|(_ & p & _ & Hfault)].
    + left. exact Hc.
    + right. exact (fault_messages _ _ _ Hfault).
Qed.

Lemma getNode_throws_iff_witness :
  exists e, getNode Samples.no_collision Samples.f_then_let_x 1 = Raise e.
Proof.
  apply (proj2 (proj1 (getNode_throws_iff Samples.no_collision
                         Samples.f_then_let_x 1))).
  right.
  exists {| path_pos := [("program", 0%nat); ("children", 1%nat)];
            path_node :=
              VariableDeclaration (Samples.span 2 0 2 6)
                [ VariableDeclarator (Samples.span 2 4 2 5)
                    (Identifier (Samples.span 2 4 2 5) "x") None ] |}.
  split; [|split; reflexivity].
  simpl. tauto.
Defined.

(** X4. [parse] returns [null] exactly when the text parses, the scope
    crawl returns, and no visited node on the target line or one line below
    it is either in one of the three located shapes or a declaration
    without initializer. *)
Theorem parse_null_iff (getAST : string -> result File)
        (crawl : File -> result unit) (code : string)
        (lineNum : option Z) :
  parse getAST crawl code lineNum = Ok None
  <-> exists ast,
        getAST code = Ok ast
        /\ crawl ast = Ok tt
        /\ forall p, In p (paths ast) ->
                     onLine (path_node p) (target lineNum) = true ->
                     locatable (path_node p) = false
                     /\ uninitialised (path_node p) = false.
Proof.
  unfold parse. fold (target lineNum). split.
  - intro H. apply bind_Ok in H. destruct H as (ast & Hast & H).
    apply bind_Ok in H. destruct H as (found & Hget & H).
    destruct found as [n|].
    { destruct (simplifyNode n); discriminate H. }
    destruct (getNode_Ok _ _ _ _ Hget) as (Hcrawl & st & Hrun & Hst).
    exists ast. split; [exact Hast|]. split; [exact Hcrawl|].
    intros p Hp Hline.
    split.
    + destruct (traverse_last_match _ _ _ _ Hrun) as [_ Hnode].
      cbn [node exported] in Hnode.
      destruct Hnode as [[_ Hnone]|(? & ? & ? & f & _ & _ & Hf & _)];
        [|congruence].
      specialize (Hnone p Hp). rewrite matches_locatable, Hline in Hnone.
      exact Hnone.
    + pose proof (traverse_Ok_safe _ _ _ _ Hrun p Hp) as Hsafe.
      destruct (uninitialised (path_node p)) eqn:Hun; [|reflexivity].
      exfalso. apply (proj2 (fault_uninitialised (target lineNum) p));
        [split; assumption | exact Hsafe].
  - intros (ast & Hast & Hcrawl & Hquiet). rewrite Hast. cbn [bind].
    unfold getNode, traverse. rewrite Hcrawl. cbn [bind].
    destruct (traverse_quiet (target lineNum) (paths ast)
                {| node := None; exported := None |})
      as (st & Hrun & Hsame).
    + intros q Hq.
      destruct (fault (target lineNum) q) as [e|] eqn:Hfault; [|reflexivity].
      exfalso.
      assert (fault (target lineNum) q <> None) as Hne by congruence.
      apply fault_uninitialised in Hne. destruct Hne as [Hline Hun].
      destruct (Hquiet q Hq Hline) as [_ Hinit]. congruence.
    + intros q Hq. rewrite matches_locatable.
      destruct (onLine (path_node q) (target lineNum)) eqn:Hline;
        [|reflexivity].
      destruct (Hquiet q Hq Hline) as [Hloc _]. rewrite Hloc. reflexivity.
    + rewrite Hrun. cbn [bind]. rewrite Hsame. reflexivity.
Qed.

Lemma parse_null_iff_witness :
  parse (fun _ => Ok Samples.const_arrow) Samples.no_collision
        "const f = () => {};" (Some 1)
  = Ok None.
Proof.
  apply (proj2 (parse_null_iff (fun _ => Ok Samples.const_arrow)
                  Samples.no_collision "const f = () => {};" (Some 1))).
  exists Samples.const_arrow. split; [reflexivity|]. split; [reflexivity|].
  intros p Hp _. simpl in Hp.
  repeat (destruct Hp as [<-|Hp]; [split; reflexivity|]). destruct Hp.
Defined.

(** ** Further properties of the Parameter Simplifier *)

Lemma mapM_app {A B} (f : A -> result B) (l1 l2 : list A) :
  mapM f (l1 ++ l2)
  = ys1 <- mapM f l1 ;; ys2 <- mapM f l2 ;; Ok (ys1 ++ ys2).
Proof.
  induction l1 as [|x l1 IH]; simpl.
  - destruct (mapM f l2); reflexivity.
  - destruct (f x) as [y|e]; simpl; [|reflexivity].
    rewrite IH. destruct (mapM f l1) as [ys1|e]; simpl; [|reflexivity].
    destruct (mapM f l2); reflexivity.
Qed.

(** X8. Simplifying a parameter list is compositional: the descriptors of
    a concatenation are the descriptors of the first part followed by those
    of the second, and the whole fails with the first failure met from left
    to right. *)
Theorem simplifyParams_app (params more : list Node) :
  simplifyParams (params ++ more)
  = ds <- simplifyParams params ;;
    es <- simplifyParams more ;;
    Ok (ds ++ es).
Proof.
  rewrite !simplifyParams_mapM, mapM_app.
  destruct (mapM simplifyParam params) as [dss|e]; simpl; [|reflexivity].
  destruct (mapM simplifyParam more) as [ess|e]; simpl; [|reflexivity].
  rewrite concat_app. reflexivity.
Qed.

Lemma PARAM_PARSERS_Other (k : other_kind) :
  PARAM_PARSERS (kind_name k) = None.
Proof.
  apply PARAM_PARSERS_None. intro Hin. apply (other_kind_fresh k).
  unfold param_kinds in Hin. unfold modelled_kinds. simpl in *.
  intuition.
Qed.

(** The parser the table holds for a node is the one for its shape. *)
Lemma simplifyParam_cases (param : Node) :
  (exists loc name, param = Identifier loc name)
  \/ (exists loc left' right', param = AssignmentPattern loc left' right')
  \/ (exists loc argument, param = RestElement loc argument)
  \/ (exists loc props, param = ObjectPattern loc props)
  \/ (~ In (type_of param) param_kinds
      /\ simplifyParam param
         = Raise (Error ("Unknown param type: " ++ type_of param)%string)).
Proof.
  destruct param;
    try (left; eexists; eexists; reflexivity);
    try (right; left; eexists; eexists; eexists; reflexivity);
    try (right; right; left; eexists; eexists; reflexivity);
    try (right; right; right; left; eexists; eexists; reflexivity);
    right; right; right; right;
    try (split; [simpl; intuition discriminate | reflexivity]).
  split.
  - apply PARAM_PARSERS_None. apply PARAM_PARSERS_Other.
  - unfold simplifyParam, getParamParser. cbn [type_of].
    rewrite PARAM_PARSERS_Other. reflexivity.
Qed.

(** Induction along the nesting of object patterns. *)
Lemma pattern_induction (P : Node -> Prop) :
  (forall param, is_object_pattern param = false -> P param) ->
  (forall loc props,
      (forall l key value, In (ObjectProperty l key value) props -> P value) ->
      P (ObjectPattern loc props)) ->
  forall param, P param.
Proof.
  intros Hflat Hnested.
  assert (forall k param, (pattern_depth param <= k)%nat -> P param) as H.
  { induction k as [|k IH]; intros param Hdepth.
    - apply Hflat. destruct param; try reflexivity.
      cbn [pattern_depth] in Hdepth. lia.
    - destruct (is_object_pattern param) eqn:Hpat; [|apply Hflat; exact Hpat].
      destruct param; try discriminate Hpat.
      apply Hnested. intros l key value Hin. apply IH.
      pose proof (pattern_depth_value loc l key value properties Hin). lia. }
  intro param. exact (H _ param (Nat.le_refl _)).
Qed.

(** Every parameter that is simplified yields at least one descriptor. *)
Lemma simplifyParam_nonempty (param : Node) (ds : list ParameterDescriptor) :
  simplifyParam param = Ok ds -> (1 <= List.length ds)%nat.
Proof.
  intro Hds. destruct (is_object_pattern param) eqn:Hpat.
  - destruct param; try discriminate Hpat.
    rewrite simplifyParam_ObjectPattern, parseDestructuredParam_mapM in Hds.
    destruct (mapM simplifyProperty properties); [|discriminate Hds].
    injection Hds as <-. simpl. lia.
  - rewrite (simplifyParam_single param ds Hpat Hds). lia.
Qed.

Lemma simplifyParam_top_parent (param : Node) (ds : list ParameterDescriptor) :
  is_object_pattern param = false ->
  simplifyParam param = Ok ds ->
  Forall (fun d => pd_parent d = None) ds.
Proof.
  intros Hpat Hds.
  destruct (simplifyParam_cases param)
    as [(loc & name & ->)|[(loc & l & r & ->)|[(loc & a & ->)|
        [(loc & props & ->)|[_ Hraise]]]]].
  - injection Hds as <-. repeat constructor.
  - unfold simplifyParam in Hds. simpl in Hds.
    destruct r; try discriminate Hds; injection Hds as <-;
      repeat constructor.
  - injection Hds as <-. repeat constructor.
  - discriminate Hpat.
  - congruence.
Qed.

(** X9. No parameter is dropped: a parameter list that is simplified yields
    at least as many descriptors as it has parameters; when no parameter is
    destructured it yields exactly as many and none of them has a
    [parent]. *)
Theorem simplifyParams_length (params : list Node)
        (ds : list ParameterDescriptor) :
  simplifyParams params = Ok ds ->
  (List.length params <= List.length ds)%nat
  /\ (forallb (fun p => negb (is_object_pattern p)) params = true ->
      List.length ds = List.length params
      /\ Forall (fun d => pd_parent d = None) ds).
Proof.
  rewrite simplifyParams_mapM.
  destruct (mapM simplifyParam params) as [dss|e] eqn:Hdss; [|discriminate].
  simpl. intro H. injection H as <-.
  apply mapM_Ok in Hdss.
  induction Hdss as [|param yielded params dss Hparam _ IH]; simpl.
  - split; [lia|]. intros _. split; [reflexivity | constructor].
  - destruct IH as [Hle Hflat]. rewrite length_app.
    pose proof (simplifyParam_nonempty param yielded Hparam) as Hone.
    split; [lia|]. intro Hall. apply andb_true_iff in Hall.
    destruct Hall as [Hpat Hall]. apply negb_true_iff in Hpat.
    destruct (Hflat Hall) as [Hlen Hparents].
    rewrite (simplifyParam_single param yielded Hpat Hparam), Hlen.
    split; [reflexivity|]. apply Forall_app. split; [|exact Hparents].
    exact (simplifyParam_top_parent param yielded Hpat Hparam).
Qed.

Lemma simplifyParams_length_witness :
  (List.length [Samples.flat_pattern; Samples.a_is_1] <= 4)%nat.
Proof.
  exact (proj1 (simplifyParams_length
                  [Samples.flat_pattern; Samples.a_is_1]
                  [ synthetic_parent;
                    {| pd_name := JString "x"; pd_parent := Some "Unknown";
                       pd_type := None; pd_defaultValue := None |};
                    {| pd_name := JString "y"; pd_parent := Some "Unknown";
                       pd_type := Some "number";
                       pd_defaultValue := Some (JNumber 1) |};
                    {| pd_name := JString "a"; pd_parent := None;
                       pd_type := Some "number";
                       pd_defaultValue := Some (JNumber 1) |} ]
                  eq_refl)).
Defined.

Lemma wellformed_assign_parent (d : ParameterDescriptor) :
  wellformed d -> wellformed (assign_parent DEFAULT_PARAM_NAME d).
Proof.
  intros (Htype & Hdefault & _). repeat split; try assumption.
  right. reflexivity.
Qed.

Lemma wellformed_synthetic_parent : wellformed synthetic_parent.
Proof.
  repeat split.
  - intros t H. injection H as <-. simpl. auto.
  - intros _. discriminate.
  - left. reflexivity.
Qed.

Lemma simplifyParam_wellformed (param : Node) :
  forall ds, simplifyParam param = Ok ds -> Forall wellformed ds.
Proof.
  induction param as [param Hpat | loc props IH] using pattern_induction;
    intros ds Hds.
  - destruct (simplifyParam_cases param)
      as [(loc & name & ->)|[(loc & l & r & ->)|[(loc & a & ->)|
          [(loc & props & ->)|[_ Hraise]]]]];
      [| | |discriminate Hpat|congruence].
    + injection Hds as <-. constructor; [|constructor].
      repeat split; try discriminate. intro H. exfalso. apply H. reflexivity.
      left. reflexivity.
    + unfold simplifyParam in Hds. simpl in Hds.
      destruct r; try discriminate Hds; injection Hds as <-;
        (constructor; [|constructor]);
        (split; [intros t H; injection H as <-; simpl; tauto
                | split; [intros _; discriminate | left; reflexivity]]).
    + injection Hds as <-. constructor; [|constructor].
      split; [intros t H; injection H as <-; simpl; tauto|].
      split; [intros _; discriminate | left; reflexivity].
  - rewrite simplifyParam_ObjectPattern, parseDestructuredParam_mapM in Hds.
    destruct (mapM simplifyProperty props) as [dss|e] eqn:Hdss;
      [|discriminate Hds].
    injection Hds as <-. constructor; [exact wellformed_synthetic_parent|].
    apply Forall_concat. apply Forall_map. apply mapM_Ok in Hdss.
    induction Hdss as [|prop ps props dss Hprop _ IHdss]; constructor.
    + unfold with_parent. apply Forall_map.
      eapply Forall_impl; [exact wellformed_assign_parent|].
      destruct prop; try discriminate Hprop.
      apply (IH loc0 prop1 prop2 (or_introl eq_refl)). exact Hprop.
    + apply IHdss. intros l key value Hin.
      apply (IH l key value). right. exact Hin.
Qed.

(** X10. Every descriptor [parse] emits is well formed: its [type], when it
    has one, is one of "string", "number", "array" and "object"; it has a
    [defaultValue] only together with a [type]; and its [parent], when it
    has one, is the placeholder "Unknown". *)
Theorem parse_descriptors_wellformed
        (getAST : string -> result File) (crawl : File -> result unit)
        (code : string)
        (lineNum : option Z) (fd : FunctionDescriptor) :
  parse getAST crawl code lineNum = Ok (Some fd) ->
  Forall wellformed (fd_params fd).
Proof.
  intro H.
  destruct (parse_Some _ _ _ _ _ H) as (ast & n & _ & _ & Hfd).
  destruct (simplifyNode_Ok _ _ Hfd) as (name & _ & (raw & _ & Hparams) & _).
  rewrite simplifyParams_mapM in Hparams.
  destruct (mapM simplifyParam raw) as [dss|e] eqn:Hdss; [|discriminate].
  simpl in Hparams. injection Hparams as <-.
  apply Forall_concat. apply mapM_Ok in Hdss.
  induction Hdss as [|param ps params dss Hparam _ IH]; constructor;
    [|exact IH].
  exact (simplifyParam_wellformed param ps Hparam).
Qed.

Lemma parse_descriptors_wellformed_witness :
  Forall wellformed
    [ synthetic_parent;
      assign_parent DEFAULT_PARAM_NAME synthetic_parent;
      assign_parent DEFAULT_PARAM_NAME (plain "b");
      assign_parent DEFAULT_PARAM_NAME (plain "c") ].
Proof.
  exact (parse_descriptors_wellformed
           (fun _ => Ok Samples.f_nested) Samples.no_collision
           "function f({a: {b, c}}) {}" None
           {| fd_name := JString "f";
              fd_location := {| line := 1; column := 0 |};
              fd_params :=
                [ synthetic_parent;
                  assign_parent DEFAULT_PARAM_NAME synthetic_parent;
                  assign_parent DEFAULT_PARAM_NAME (plain "b");
                  assign_parent DEFAULT_PARAM_NAME (plain "c") ];
              fd_returns := {| returns := false |} |}
           eq_refl).
Defined.

Lemma mapM_succeeds {A B} (f : A -> result B) (l : list A) :
  (exists ys, mapM f l = Ok ys) <-> Forall (fun x => exists y, f x = Ok y) l.
Proof.
  induction l as [|x l IH]; simpl.
  - split; [constructor | intros _; eexists; reflexivity].
  - split.
    + intros [ys H]. destruct (f x) as [y|e] eqn:Hx; [|discriminate H].
      simpl in H. destruct (mapM f l) as [ys'|e]; [|discriminate H].
      constructor; [exists y; exact Hx|].
      apply IH. eexists. reflexivity.
    + intro Hall. inversion Hall as [|x' l' [y Hx] Hl]; subst.
      apply IH in Hl. destruct Hl as [ys Hys].
      rewrite Hx, Hys. eexists. reflexivity.
Qed.

Lemma simplifyParam_supported (param : Node) :
  (exists ds, simplifyParam param = Ok ds) <-> supported param = true.
Proof.
  induction param as [param Hpat | loc props IH] using pattern_induction.
  - destruct (simplifyParam_cases param)
      as [(loc & name & ->)|[(loc & l & r & ->)|[(loc & a & ->)|
          [(loc & props & ->)|[Hkind Hraise]]]]];
      [| | |discriminate Hpat|].
    + split; [reflexivity | intros _; eexists; reflexivity].
    + unfold simplifyParam. simpl.
      destruct r; simpl; split;
        try (intros [ds H]; discriminate H); try discriminate;
        try reflexivity; intros _; eexists; reflexivity.
    + split; [reflexivity | intros _; eexists; reflexivity].
    + rewrite Hraise. split; [intros [ds H]; discriminate H|].
      intro Hsup. exfalso. apply Hkind.
      destruct param; try discriminate Hsup; simpl; auto.
  - rewrite simplifyParam_ObjectPattern, parseDestructuredParam_mapM.
    cbn [supported]. rewrite forallb_forall.
    split.
    + intros [ds Hds].
      destruct (mapM simplifyProperty props) as [dss|e] eqn:Hdss;
        [|discriminate Hds].
      assert (exists ys, mapM simplifyProperty props = Ok ys) as Hok
        by (eexists; exact Hdss).
      apply mapM_succeeds in Hok. rewrite Forall_forall in Hok.
      intros prop Hin. destruct (Hok prop Hin) as [ps Hps].
      destruct prop; try discriminate Hps.
      apply (IH loc0 prop1 prop2 Hin). exists ps. exact Hps.
    + intro Hall.
      assert (exists ys, mapM simplifyProperty props = Ok ys) as [dss Hdss].
      { apply mapM_succeeds. apply Forall_forall. intros prop Hin.
        specialize (Hall prop Hin). destruct prop; try discriminate Hall.
        apply (IH loc0 prop1 prop2 Hin). exact Hall. }
      rewrite Hdss. eexists. reflexivity.
Qed.

(** X11. Whether a parameter list is simplified is decided by its syntax
    alone: [simplifyParams] returns descriptors exactly when every
    parameter is a plain name, a rest element, a name whose default is a
    string, numeric, array or object literal, or an object pattern all of
    whose properties hold such parameters, at any depth of nesting. *)
Theorem simplifyParams_succeeds_iff (params : list Node) :
  (exists ds, simplifyParams params = Ok ds)
  <-> forallb supported params = true.
Proof.
  rewrite simplifyParams_mapM, forallb_forall. split.
  - intros [ds Hds].
    destruct (mapM simplifyParam params) as [dss|e] eqn:Hdss;
      [|discriminate Hds].
    assert (exists ys, mapM simplifyParam params = Ok ys) as Hok
      by (eexists; exact Hdss).
    apply mapM_succeeds in Hok. rewrite Forall_forall in Hok.
    intros param Hin. apply simplifyParam_supported. exact (Hok param Hin).
  - intro Hall.
    assert (exists ys, mapM simplifyParam params = Ok ys) as [dss Hdss].
    { apply mapM_succeeds. apply Forall_forall. intros param Hin.
      apply simplifyParam_supported. exact (Hall param Hin). }
    rewrite Hdss. eexists. reflexivity.
Qed.

Lemma simplifyParams_succeeds_iff_witness :
  exists ds, simplifyParams [Samples.nested_pattern; Samples.a_is_1] = Ok ds.
Proof.
  apply (proj2 (simplifyParams_succeeds_iff
                  [Samples.nested_pattern; Samples.a_is_1])).
  reflexivity.
Defined.

Lemma mapM_Raise_In {A B} (f : A -> result B) (l : list A) (e : exn) :
  mapM f l = Raise e -> exists x, In x l /\ f x = Raise e.
Proof.
  induction l as [|x l IH]; simpl; [discriminate|].
  destruct (f x) as [y|e'] eqn:Hx; simpl.
  - destruct (mapM f l) as [ys|e'] eqn:Hl; simpl; [discriminate|].
    intro H. injection H as <-.
    destruct (IH eq_refl) as (z & Hz & Hfz). exists z. auto.
  - intro H. injection H as <-. exists x. auto.
Qed.

Lemma simplifyParam_failures (param : Node) :
  forall e,
    simplifyParam param = Raise e ->
    unsupported_kind_error e \/ e = malformed_property_error.
Proof.
  induction param as [param Hpat | loc props IH] using pattern_induction;
    intros e He.
  - destruct (simplifyParam_cases param)
      as [(loc & name & ->)|[(loc & l & r & ->)|[(loc & a & ->)|
          [(loc & props & ->)|[Hkind Hraise]]]]];
      [discriminate He| |discriminate He|discriminate Hpat|].
    + left. right. exists (type_of r).
      destruct (is_literal r) eqn:Hlit.
      * destruct r; try discriminate Hlit; discriminate He.
      * split.
        -- intro Hin. apply type_of_literal in Hin. congruence.
        -- unfold simplifyParam in He. simpl in He.
           destruct r; try discriminate Hlit; injection He as <-;
             reflexivity.
    + left. left. exists (type_of param). split; [exact Hkind|]. congruence.
  - rewrite simplifyParam_ObjectPattern, parseDestructuredParam_mapM in He.
    destruct (mapM simplifyProperty props) as [dss|e'] eqn:Hdss;
      [discriminate He|].
    injection He as <-.
    destruct (mapM_Raise_In _ _ _ Hdss) as (prop & Hin & Hprop).
    destruct prop; try (right; injection Hprop as <-; reflexivity).
    exact (IH loc0 prop1 prop2 Hin e' Hprop).
Qed.

(** What the Locator returns was assigned by the visitor at some path. *)
Lemma getNode_found (crawl : File -> result unit) (ast : File) (lineNum : Z)
      (f : FunctionNode) :
  getNode crawl ast lineNum = Ok (Some f) ->
  exists before p after,
    paths ast = before ++ p :: after
    /\ candidate lineNum (last_export None before) p = Some f.
Proof.
  intro Hget. destruct (getNode_Ok _ _ _ _ Hget) as (_ & st & Hrun & Hst).
  destruct (traverse_last_match _ _ _ _ Hrun) as [_ Hnode].
  cbn [node exported] in Hnode.
  destruct Hnode as [[Hsame _]|(before & p & after & f' & Hps & Hc & Hf & _)];
    [congruence|].
  exists before, p, after. split; [exact Hps|]. congruence.
Qed.

Lemma candidate_has_params (lineNum : Z) (ex : option NodePath)
      (p : NodePath) (f : FunctionNode) :
  candidate lineNum ex p = Some f -> params_of (fn_node f) <> None.
Proof.
  unfold candidate, visitor. destruct p as [pos n].
  cbn [path_node node exported].
  destruct n; try discriminate; case_visitor; try discriminate;
    simpl; intro H; injection H as <-; discriminate.
Qed.

(** X12. Whatever [parse] throws is one of: what the parser throws; what
    the scope crawl throws on the parsed text; the [TypeError] of the
    Locator on a declaration without initializer; the [TypeError] on a
    located declaration without a name; a failure on unsupported syntax
    that carries a kind name outside the supported ones; or the
    [TypeError] on a property that has no value. *)
Theorem parse_failure_taxonomy
        (getAST : string -> result File) (crawl : File -> result unit)
        (code : string)
        (lineNum : option Z) (e : exn) :
  parse getAST crawl code lineNum = Raise e ->
  getAST code = Raise e
  \/ (exists ast, getAST code = Ok ast /\ crawl ast = Raise e)
  \/ In e (nameless_error :: locator_errors)
  \/ unsupported_kind_error e.
Proof.
  unfold parse. fold (target lineNum). intro H.
  destruct (getAST code) as [ast|e0]; cbn [bind] in H;
    [|left; injection H as <-; reflexivity].
  right.
  destruct (getNode crawl ast (target lineNum)) as [found|e0] eqn:Hget.
  - right. cbn [bind] in H. destruct found as [n|]; [|discriminate H].
    destruct (simplifyNode n) as [fd|e0] eqn:Hfd; [discriminate H|].
    injection H as <-. unfold simplifyNode in Hfd.
    destruct (fn_id n) as [name|];
      [|injection Hfd as <-; left; left; reflexivity].
    destruct (getNode_found _ _ _ _ Hget) as (before & p & after & _ & Hc).
    destruct (params_of (fn_node n)) as [raw|] eqn:Hraw;
      [|exfalso; exact (candidate_has_params _ _ _ _ Hc Hraw)].
    rewrite simplifyParams_mapM in Hfd.
    destruct (mapM simplifyParam raw) as [dss|e1] eqn:Hdss;
      [discriminate Hfd|].
    injection Hfd as <-.
    destruct (mapM_Raise_In _ _ _ Hdss) as (param & _ & Hparam).
    destruct (simplifyParam_failures param _ Hparam) as [Hkind|Hmal].
    + right. exact Hkind.
    + left. rewrite Hmal. simpl. auto.
  - injection H as <-.
    destruct (getNode_Raise _ _ _ _ Hget) as [Hc|(_ & p & _ & Hfault)].
    + left. exists ast. split; [reflexivity | exact Hc].
    + right. left. right. exact (fault_messages _ _ _ Hfault).
Qed.

Lemma parse_failure_taxonomy_witness :
  (fun _ : string => Ok Samples.export_default_anonymous)
    "export default function () {}"
  = Raise nameless_error
  \/ (exists ast,
        (fun _ : string => Ok Samples.export_default_anonymous)
          "export default function () {}" = Ok ast
        /\ Samples.no_collision ast = Raise nameless_error)
  \/ In nameless_error (nameless_error :: locator_errors)
  \/ unsupported_kind_error nameless_error.
Proof.
  exact (parse_failure_taxonomy
           (fun _ => Ok Samples.export_default_anonymous) Samples.no_collision
           "export default function () {}" None nameless_error eq_refl).
Defined.

(** X13. A list of plain names is described name by name, in order: each
    identifier yields the descriptor [{ name }] and nothing else. *)
Theorem plain_params_in_order (ids : list (SourceLocation * string)) :
  simplifyParams (map (fun id => Identifier (fst id) (snd id)) ids)
  = Ok (map (fun id => plain (snd id)) ids).
Proof.
  induction ids as [|id ids IH]; [reflexivity|].
  change (map (fun id => Identifier (fst id) (snd id)) (id :: ids))
    with ([Identifier (fst id) (snd id)]
            ++ map (fun id => Identifier (fst id) (snd id)) ids).
  rewrite simplifyParams_mapM, mapM_app.
  rewrite simplifyParams_mapM in IH.
  destruct (mapM simplifyParam
              (map (fun id => Identifier (fst id) (snd id)) ids))
    as [dss|e]; [|discriminate IH].
  simpl in IH. injection IH as IH. simpl. rewrite IH. reflexivity.
Qed.

(** X14. Nesting is flattened away: a destructured parameter with a nested
    object pattern is described exactly like the parameter in which the
    nested pattern is emptied and its properties are moved up behind it,
    and it fails in exactly the same way. *)
Theorem nested_pattern_is_flattened
        (loc lp li : SourceLocation) (key : Node)
        (before inner after : list Node) :
  parseDestructuredParam
    (ObjectPattern loc
       (before ++ ObjectProperty lp key (ObjectPattern li inner) :: after))
  = parseDestructuredParam
      (ObjectPattern loc
         (before ++ ObjectProperty lp key (ObjectPattern li [])
                 :: inner ++ after)).
Proof.
  rewrite !parseDestructuredParam_mapM.
  rewrite !mapM_app.
  destruct (mapM simplifyProperty before) as [dsb|e]; [|reflexivity].
  cbn [bind].
  change (ObjectProperty lp key (ObjectPattern li inner) :: after)
    with ([ObjectProperty lp key (ObjectPattern li inner)] ++ after).
  change (ObjectProperty lp key (ObjectPattern li []) :: inner ++ after)
    with ([ObjectProperty lp key (ObjectPattern li [])] ++ inner ++ after).
  rewrite !mapM_app.
  cbn [mapM simplifyProperty].
  rewrite !simplifyParam_ObjectPattern, !parseDestructuredParam_mapM.
  cbn [mapM bind].
  destruct (mapM simplifyProperty inner) as [dsi|e]; [|reflexivity].
  cbn [bind app].
  destruct (mapM simplifyProperty after) as [dsa|e]; [|reflexivity].
  cbn [bind]. f_equal. f_equal.
  rewrite !map_app, !concat_app. f_equal.
  cbn [map List.concat]. rewrite map_app, concat_app.
  unfold with_parent. cbn [map app List.concat].
  f_equal. f_equal.
  rewrite concat_map, map_map. f_equal.
  apply map_ext. intro ps. rewrite map_map. reflexivity.
Qed.

(** ** Where the reported location comes from *)

(** The location the visitor gives the node it assigns is that of the
    visited statement, unless the node is the declaration of the recorded
    export, whose location it then takes. *)
Lemma candidate_location (lineNum : Z) (ex : option NodePath) (p : NodePath)
      (f : FunctionNode) :
  candidate lineNum ex p = Some f ->
  fn_loc f = loc_of (path_node p)
  \/ exists e, ex = Some e /\ declaration_is e p = true
               /\ fn_loc f = loc_of (path_node e).
Proof.
  unfold candidate, visitor. destruct p as [pos n].
  cbn [path_node node exported].
  destruct n; try discriminate.
  - case_visitor; try discriminate; simpl; intro H; injection H as <-;
      left; reflexivity.
  - cbn -[onLine]. destruct (onLine _ lineNum); [|discriminate].
    destruct ex as [e|]; cbn -[onLine].
    + destruct (declaration_is e _) eqn:Hdecl; intro H; injection H as <-.
      * right. exists e. auto.
      * left. reflexivity.
    + intro H. injection H as <-. left. reflexivity.
  - case_visitor; try discriminate; simpl; intro H; injection H as <-;
      left; reflexivity.
Qed.

Lemma last_export_In (visited : list NodePath) :
  forall ex e,
    last_export ex visited = Some e ->
    ex = Some e \/ (In e visited /\ is_export (path_node e) = true).
Proof.
  induction visited as [|p visited IH]; intros ex e H.
  - left. exact H.
  - rewrite last_export_cons in H. apply IH in H.
    destruct H as [H|[H1 H2]]; [|right; split; [right|]; assumption].
    destruct (is_export (path_node p)) eqn:Hp; [|left; exact H].
    injection H as <-. right. split; [left; reflexivity | exact Hp].
Qed.

Lemma onLine_window (n : Node) (lineNum : Z) :
  onLine n lineNum = true ->
  line (start (loc_of n)) = lineNum \/ line (start (loc_of n)) = lineNum + 1.
Proof.
  unfold onLine. intro H. apply orb_true_iff in H.
  destruct H as [H|H]; apply Z.eqb_eq in H; lia.
Qed.

(** X5. The insertion point [parse] reports is computed from the location
    of a visited statement that starts on the target line or one line below
    it and has one of the three located shapes, or, when that statement is
    the declaration of an export wrapper visited before it, from the
    location of that export. *)
Theorem reported_location_source
        (getAST : string -> result File) (crawl : File -> result unit)
        (code : string)
        (lineNum : option Z) (fd : FunctionDescriptor) :
  parse getAST crawl code lineNum = Ok (Some fd) ->
  exists ast p,
    getAST code = Ok ast
    /\ In p (paths ast)
    /\ onLine (path_node p) (target lineNum) = true
    /\ locatable (path_node p) = true
    /\ (fd_location fd = simplifyLocation (loc_of (path_node p))
        \/ exists e,
             In e (paths ast)
             /\ is_export (path_node e) = true
             /\ declaration_is e p = true
             /\ fd_location fd = simplifyLocation (loc_of (path_node e))).
Proof.
  intro H.
  destruct (parse_Some _ _ _ _ _ H) as (ast & n & Hast & Hget & Hfd).
  fold (target lineNum) in Hget.
  destruct (simplifyNode_Ok _ _ Hfd) as (name & _ & _ & _ & Hloc & _).
  destruct (getNode_found _ _ _ _ Hget) as (before & p & after & Hps & Hc).
  exists ast, p. split; [exact Hast|].
  split; [rewrite Hps; apply in_elt|].
  assert (matches (target lineNum) p = true) as Hm.
  { destruct (matches (target lineNum) p) eqn:Hm; [reflexivity|].
    apply (candidate_matches _ (last_export None before)) in Hm. congruence. }
  rewrite matches_locatable in Hm. apply andb_true_iff in Hm.
  destruct Hm as [Hline Hshape]. split; [exact Hline|].
  split; [exact Hshape|]. rewrite Hloc.
  destruct (candidate_location _ _ _ _ Hc) as [->|(e & Hex & Hdecl & ->)];
    [left; reflexivity|].
  right. exists e.
  destruct (last_export_In before None e Hex) as [Hnone|[Hin Hexp]];
    [discriminate Hnone|].
  split; [rewrite Hps; apply in_or_app; left; exact Hin|].
  auto.
Qed.

Lemma reported_location_source_witness :
  exists ast p,
    (fun _ : string => Ok Samples.export_function_f) "" = Ok ast
    /\ In p (paths ast)
    /\ onLine (path_node p) 1 = true
    /\ locatable (path_node p) = true
    /\ ({| line := 1; column := 0 |} = simplifyLocation (loc_of (path_node p))
        \/ exists e,
             In e (paths ast)
             /\ is_export (path_node e) = true
             /\ declaration_is e p = true
             /\ {| line := 1; column := 0 |}
                = simplifyLocation (loc_of (path_node e))).
Proof.
  exact (reported_location_source
           (fun _ => Ok Samples.export_function_f) Samples.no_collision "" None
           {| fd_name := JString "f";
              fd_location := {| line := 1; column := 0 |};
              fd_params := [];
              fd_returns := {| returns := false |} |}
           eq_refl).
Defined.

Lemma last_export_none (visited : list NodePath) :
  (forall p, In p visited -> is_export (path_node p) = false) ->
  last_export None visited = None.
Proof.
  intro Hnone. destruct (last_export None visited) as [e|] eqn:H;
    [|reflexivity].
  destruct (last_export_In visited None e H) as [H0|[Hin Hexp]];
    [discriminate H0|].
  rewrite (Hnone e Hin) in Hexp. discriminate Hexp.
Qed.

(** X6. In a program without export wrappers the comment lands next to
    the cursor: the line [parse] reports is the line above the target line
    or the target line itself (never above line 1), and the column is that
    of a visited statement starting on the target line or one below. *)
Theorem insertion_point_next_to_cursor
        (getAST : string -> result File) (crawl : File -> result unit)
        (code : string)
        (lineNum : option Z) (ast : File) (fd : FunctionDescriptor) :
  getAST code = Ok ast ->
  (forall p, In p (paths ast) -> is_export (path_node p) = false) ->
  parse getAST crawl code lineNum = Ok (Some fd) ->
  (line (fd_location fd) = Z.max (target lineNum - 1) 1
   \/ line (fd_location fd) = Z.max (target lineNum) 1)
  /\ exists p,
       In p (paths ast)
       /\ onLine (path_node p) (target lineNum) = true
       /\ column (fd_location fd) = column (start (loc_of (path_node p))).
Proof.
  intros Hast Hplain H.
  destruct (parse_Some _ _ _ _ _ H) as (ast' & n & Hast' & Hget & Hfd).
  assert (ast' = ast) as -> by congruence.
  fold (target lineNum) in Hget.
  destruct (simplifyNode_Ok _ _ Hfd) as (name & _ & _ & _ & Hloc & _).
  destruct (getNode_found _ _ _ _ Hget) as (before & p & after & Hps & Hc).
  rewrite last_export_none in Hc.
  2:{ intros q Hq. apply Hplain. rewrite Hps. apply in_or_app. left.
      exact Hq. }
  destruct (candidate_onLine _ _ _ _ Hc) as [Hline _].
  destruct (candidate_location _ _ _ _ Hc) as [Hown|(e & Hex & _)];
    [|discriminate Hex].
  rewrite Hloc, Hown. cbn [simplifyLocation line column]. split.
  - destruct (onLine_window _ _ Hline) as [->| ->]; [left|right];
      [reflexivity | f_equal; lia].
  - exists p. split; [rewrite Hps; apply in_elt|]. split; [exact Hline|].
    reflexivity.
Qed.

Lemma insertion_point_next_to_cursor_witness :
  (1 = Z.max (target (Some 1) - 1) 1 \/ 1 = Z.max (target (Some 1)) 1)
  /\ exists p,
       In p (paths Samples.nested_functions)
       /\ onLine (path_node p) (target (Some 1)) = true
       /\ 2 = column (start (loc_of (path_node p))).
Proof.
  refine (insertion_point_next_to_cursor
            (fun _ => Ok Samples.nested_functions) Samples.no_collision
            "" (Some 1)
            Samples.nested_functions
            {| fd_name := JString "inner";
               fd_location := {| line := 1; column := 2 |};
               fd_params := [];
               fd_returns := {| returns := false |} |}
            eq_refl _ eq_refl).
  intros p Hp. simpl in Hp.
  repeat (destruct Hp as [<-|Hp]; [reflexivity|]). destruct Hp.
Defined.

(** ** Where the name and the parameters come from *)

Lemma candidate_source (lineNum : Z) (ex : option NodePath) (p : NodePath)
      (f : FunctionNode) :
  candidate lineNum ex p = Some f ->
  located_function (path_node p) = Some (fn_node f)
  /\ declared_name (path_node p) = fn_id f.
Proof.
  unfold candidate, visitor. destruct p as [pos n].
  cbn [path_node node exported].
  destruct n; try discriminate; case_visitor; try discriminate;
    simpl; intro H; injection H as <-; split; reflexivity.
Qed.

(** X7. The descriptor [parse] returns is read off a visited statement on
    the target line or one line below it: its name is the one the statement
    declares (the declaration's identifier, the target of the first
    declarator, the last property assigned to), never the function
    expression's own name, and its parameters are the simplified parameters
    of the function the statement stands for. *)
Theorem descriptor_source
        (getAST : string -> result File) (crawl : File -> result unit)
        (code : string)
        (lineNum : option Z) (fd : FunctionDescriptor) :
  parse getAST crawl code lineNum = Ok (Some fd) ->
  exists ast p fn raw,
    getAST code = Ok ast
    /\ In p (paths ast)
    /\ onLine (path_node p) (target lineNum) = true
    /\ declared_name (path_node p) = Some (fd_name fd)
    /\ located_function (path_node p) = Some fn
    /\ params_of fn = Some raw
    /\ simplifyParams raw = Ok (fd_params fd).
Proof.
  intro H.
  destruct (parse_Some _ _ _ _ _ H) as (ast & n & Hast & Hget & Hfd).
  fold (target lineNum) in Hget.
  destruct (simplifyNode_Ok _ _ Hfd)
    as (name & Hid & (raw & Hraw & Hparams) & Hname & _).
  destruct (getNode_found _ _ _ _ Hget) as (before & p & after & Hps & Hc).
  destruct (candidate_source _ _ _ _ Hc) as [Hfn Hdeclared].
  exists ast, p, (fn_node n), raw.
  split; [exact Hast|]. split; [rewrite Hps; apply in_elt|].
  split; [exact (proj1 (candidate_onLine _ _ _ _ Hc))|].
  split; [congruence|]. auto.
Qed.

Lemma descriptor_source_witness :
  exists ast p fn raw,
    (fun _ : string => Ok Samples.const_f_named_g) "" = Ok ast
    /\ In p (paths ast)
    /\ onLine (path_node p) (target None) = true
    /\ declared_name (path_node p) = Some (JString "f")
    /\ located_function (path_node p) = Some fn
    /\ params_of fn = Some raw
    /\ simplifyParams raw = Ok [plain "a"].
Proof.
  exact (descriptor_source
           (fun _ => Ok Samples.const_f_named_g) Samples.no_collision "" None
           {| fd_name := JString "f";
              fd_location := {| line := 1; column := 0 |};
              fd_params := [plain "a"];
              fd_returns := {| returns := false |} |}
           eq_refl).
Defined.

(** ** Names in the descriptors *)

Lemma simplifyParam_names (param : Node) :
  binds_identifiers param = true ->
  forall ds, simplifyParam param = Ok ds ->
             Forall (fun d => is_string (pd_name d) = true) ds.
Proof.
  induction param as [param Hpat | loc props IH] using pattern_induction;
    intros Hbinds ds Hds.
  - destruct (simplifyParam_cases param)
      as [(loc & name & ->)|[(loc & l & r & ->)|[(loc & a & ->)|
          [(loc & props & ->)|[_ Hraise]]]]];
      [| | |discriminate Hpat|congruence].
    + injection Hds as <-. repeat constructor.
    + cbn [binds_identifiers] in Hbinds.
      destruct l; try discriminate Hbinds.
      unfold simplifyParam in Hds. simpl in Hds.
      destruct r; try discriminate Hds; injection Hds as <-;
        repeat constructor.
    + cbn [binds_identifiers] in Hbinds.
      destruct a; try discriminate Hbinds.
      injection Hds as <-. repeat constructor.
  - rewrite simplifyParam_ObjectPattern, parseDestructuredParam_mapM in Hds.
    destruct (mapM simplifyProperty props) as [dss|e] eqn:Hdss;
      [|discriminate Hds].
    injection Hds as <-. constructor; [reflexivity|].
    apply Forall_concat. apply Forall_map. apply mapM_Ok in Hdss.
    cbn [binds_identifiers] in Hbinds. rewrite forallb_forall in Hbinds.
    induction Hdss as [|prop ps props dss Hprop _ IHdss]; constructor.
    + unfold with_parent. apply Forall_map.
      destruct prop; try discriminate Hprop.
      apply (IH loc0 prop1 prop2 (or_introl eq_refl)); [|exact Hprop].
      exact (Hbinds _ (or_introl eq_refl)).
    + apply IHdss.
      * intros l key value Hin. apply (IH l key value). right. exact Hin.
      * intros q Hq. apply Hbinds. right. exact Hq.
Qed.

(** X15. Descriptor names are strings as long as every binding target is
    an identifier; a default or rest element bound to a pattern instead is
    described under the name [undefined]. *)
Theorem names_are_strings_for_identifier_targets :
  (forall params ds,
      forallb binds_identifiers params = true ->
      simplifyParams params = Ok ds ->
      Forall (fun d => is_string (pd_name d) = true) ds)
  /\ (forall loc left' right' ds,
        is_identifier left' = false ->
        simplifyParams [AssignmentPattern loc left' right'] = Ok ds ->
        Forall (fun d => pd_name d = JUndefined) ds)
  /\ (forall loc argument,
        is_identifier argument = false ->
        simplifyParams [RestElement loc argument]
        = Ok [ {| pd_name := JUndefined; pd_parent := None;
                  pd_type := Some "array"; pd_defaultValue := None |} ]).
Proof.
  split; [|split].
  - intros params ds Hall. rewrite simplifyParams_mapM.
    destruct (mapM simplifyParam params) as [dss|e] eqn:Hdss; [|discriminate].
    simpl. intro H. injection H as <-.
    apply Forall_concat. apply mapM_Ok in Hdss.
    rewrite forallb_forall in Hall.
    induction Hdss as [|param ps params dss Hparam _ IH]; constructor.
    + exact (simplifyParam_names param (Hall _ (or_introl eq_refl)) ps Hparam).
    + apply IH. intros q Hq. apply Hall. right. exact Hq.
  - intros loc l r ds Hl Hds. unfold simplifyParams in Hds. simpl in Hds.
    destruct r; try discriminate Hds; injection Hds as <-;
      (constructor; [|constructor]); destruct l; try discriminate Hl;
      reflexivity.
  - intros loc a Ha. destruct a; try discriminate Ha; reflexivity.
Qed.

Lemma names_are_strings_for_identifier_targets_witness :
  Forall (fun d => is_string (pd_name d) = true)
    [ synthetic_parent;
      assign_parent DEFAULT_PARAM_NAME (plain "x");
      {| pd_name := JString "y"; pd_parent := Some "Unknown";
         pd_type := Some "number"; pd_defaultValue := Some (JNumber 1) |} ]
  /\ Forall (fun d => pd_name d = JUndefined)
       [ {| pd_name := JUndefined; pd_parent := None;
            pd_type := Some "object";
            pd_defaultValue := Some (JString "{}") |} ].
Proof.
  split.
  - exact (proj1 names_are_strings_for_identifier_targets
             [Samples.flat_pattern] _ eq_refl eq_refl).
  - exact (proj1 (proj2 names_are_strings_for_identifier_targets)
             (Samples.span 1 11 1 19)
             (ObjectPattern (Samples.span 1 11 1 14)
                [ ObjectProperty (Samples.span 1 12 1 13)
                    (Identifier (Samples.span 1 12 1 13) "a")
                    (Identifier (Samples.span 1 12 1 13) "a") ])
             (ObjectExpression (Samples.span 1 17 1 19) [])
             _ eq_refl eq_refl).
Defined.

Example simplify_defaulted_pattern :
  simplifyParams [Samples.defaulted_pattern]
  = Ok [ {| pd_name := JUndefined; pd_parent := None;
            pd_type := Some "object";
            pd_defaultValue := Some (JString "{}") |} ].
Proof. reflexivity. Qed.

(** ** Where a default value comes from *)

Lemma default_rendered_from_incl (sources more : list Node)
      (d : ParameterDescriptor) :
  incl sources more ->
  default_rendered_from sources d -> default_rendered_from more d.
Proof.
  intros Hincl Hd v Hv.
  destruct (Hd v Hv) as (loc & l & r & type & Hin & Hrest).
  exists loc, l, r, type. split; [apply Hincl; exact Hin | exact Hrest].
Qed.

Lemma simplifyParam_default_source (param : Node) :
  forall ds,
    simplifyParam param = Ok ds ->
    Forall (default_rendered_from (leaves param)) ds.
Proof.
  induction param as [param Hpat | loc props IH] using pattern_induction;
    intros ds Hds.
  - destruct (simplifyParam_cases param)
      as [(loc & name & ->)|[(loc & l & r & ->)|[(loc & a & ->)|
          [(loc & props & ->)|[_ Hraise]]]]];
      [| | |discriminate Hpat|congruence].
    + injection Hds as <-. constructor; [|constructor].
      intros v Hv. discriminate Hv.
    + unfold simplifyParam in Hds. simpl in Hds.
      destruct r; try discriminate Hds; injection Hds as <-;
        (constructor; [|constructor]); intros v Hv; injection Hv as <-;
        eexists; eexists; eexists; eexists;
        (split; [left; reflexivity|]);
        (split; [reflexivity|]); (split; [reflexivity|]).
      * left. eexists. eexists. repeat split.
      * right. left. eexists. eexists. repeat split.
      * right. right. left. eexists. eexists. repeat split.
      * right. right. right. eexists. eexists. repeat split.
    + injection Hds as <-. constructor; [|constructor].
      intros v Hv. discriminate Hv.
  - rewrite simplifyParam_ObjectPattern, parseDestructuredParam_mapM in Hds.
    destruct (mapM simplifyProperty props) as [dss|e] eqn:Hdss;
      [|discriminate Hds].
    injection Hds as <-. constructor; [intros v Hv; discriminate Hv|].
    apply Forall_concat. apply Forall_map. apply mapM_Ok in Hdss.
    assert (forall prop, In prop props ->
              forall ps, simplifyProperty prop = Ok ps ->
                Forall (default_rendered_from
                          (leaves (ObjectPattern loc props))) ps) as Hprops.
    { intros prop Hin ps Hps. destruct prop; try discriminate Hps.
      eapply Forall_impl;
        [|exact (IH loc0 prop1 prop2 Hin ps Hps)].
      intro d. apply default_rendered_from_incl.
      intros q Hq. cbn [leaves]. apply in_flat_map.
      exists (ObjectProperty loc0 prop1 prop2). split; assumption. }
    clear IH.
    remember (leaves (ObjectPattern loc props)) as sources eqn:Hsources.
    clear Hsources.
    induction Hdss as [|prop ps props' dss Hprop _ IHdss]; constructor.
    + unfold with_parent. apply Forall_map.
      eapply Forall_impl; [|exact (Hprops prop (or_introl eq_refl) ps Hprop)].
      intros d Hd v Hv. exact (Hd v Hv).
    + apply IHdss. intros q Hq. apply Hprops. right. exact Hq.
Qed.

Lemma simplifyParams_default_source (params : list Node)
      (ds : list ParameterDescriptor) :
  simplifyParams params = Ok ds ->
  Forall (default_rendered_from (flat_map leaves params)) ds.
Proof.
  rewrite simplifyParams_mapM.
  destruct (mapM simplifyParam params) as [dss|e] eqn:Hdss; [|discriminate].
  simpl. intro H. injection H as <-.
  apply Forall_concat. apply mapM_Ok in Hdss.
  induction Hdss as [|param ps params dss Hparam _ IH]; constructor.
  - eapply Forall_impl; [|exact (simplifyParam_default_source param ps Hparam)].
    intro d. apply default_rendered_from_incl.
    intros q Hq. cbn [flat_map]. apply in_or_app. left. exact Hq.
  - eapply Forall_impl; [|exact IH].
    intro dss'. apply Forall_impl. intro d.
    apply default_rendered_from_incl.
    intros q Hq. cbn [flat_map]. apply in_or_app. right. exact Hq.
Qed.

(** C6, amended. In every descriptor that [parse] emits, a [defaultValue]
    that is present renders the default expression of a parameter of the
    located function (one of its parameters or one reached through its
    object patterns), under that parameter's name: for a numeric literal
    the descriptor's type is "number" and the value is the number of the
    literal itself; in every other case the value is a string, the value of
    the string literal, "[]" for an array literal, "{}" for an object
    literal. *)
Theorem default_value_follows_type
        (getAST : string -> result File) (crawl : File -> result unit)
        (code : string) (lineNum : option Z) (fd : FunctionDescriptor) :
  parse getAST crawl code lineNum = Ok (Some fd) ->
  forall d v,
    In d (fd_params fd) ->
    pd_defaultValue d = Some v ->
    ((pd_type d = Some "number" /\ is_number v = true)
     \/ (pd_type d <> Some "number" /\ is_string v = true))
    /\ exists ast n raw loc left' right' type,
         getAST code = Ok ast
         /\ getNode crawl ast (target lineNum) = Ok (Some n)
         /\ params_of (fn_node n) = Some raw
         /\ In (AssignmentPattern loc left' right') (flat_map leaves raw)
         /\ pd_name d = name_of left'
         /\ pd_type d = Some type
         /\ renders_default right' type v.
Proof.
  intros H d v Hin Hv.
  destruct (parse_Some _ _ _ _ _ H) as (ast & n & Hast & Hget & Hfd).
  destruct (simplifyNode_Ok _ _ Hfd) as (name & _ & (raw & Hraw & Hparams) & _).
  split.
  - pose proof (simplifyParams_defaults _ _ Hparams) as Hall.
    rewrite Forall_forall in Hall. exact (Hall d Hin v Hv).
  - pose proof (simplifyParams_default_source _ _ Hparams) as Hall.
    rewrite Forall_forall in Hall.
    destruct (Hall d Hin v Hv) as (loc & l & r & type & Hsrc & Hrest).
    exists ast, n, raw, loc, l, r, type. auto.
Qed.

Lemma default_value_follows_type_witness :
  ((Some "number" = Some "number" /\ is_number (JNumber 1) = true)
   \/ (Some "number" <> Some "number" /\ is_string (JNumber 1) = true))
  /\ exists ast n raw loc left' right' type,
       (fun _ : string => Ok Samples.f_default_1) "function f(a = 1) {}"
       = Ok ast
       /\ getNode Samples.no_collision ast (target (Some 1)) = Ok (Some n)
       /\ params_of (fn_node n) = Some raw
       /\ In (AssignmentPattern loc left' right') (flat_map leaves raw)
       /\ JString "a" = name_of left'
       /\ Some "number" = Some type
       /\ renders_default right' type (JNumber 1).
Proof.
  exact (default_value_follows_type
           (fun _ => Ok Samples.f_default_1) Samples.no_collision
           "function f(a = 1) {}" (Some 1)
           {| fd_name := JString "f";
              fd_location := {| line := 1; column := 0 |};
              fd_params :=
                [ {| pd_name := JString "a"; pd_parent := None;
                     pd_type := Some "number";
                     pd_defaultValue := Some (JNumber 1) |} ];
              fd_returns := {| returns := false |} |}
           eq_refl
           {| pd_name := JString "a"; pd_parent := None;
              pd_type := Some "number";
              pd_defaultValue := Some (JNumber 1) |}
           (JNumber 1) (or_introl eq_refl) eq_refl).
Defined.
